(** * DeepL MCP server: the tool dispatcher, its two handlers and the
    error normalizer of [src/index.ts], embedded as Rocq functions.

    The server is a thin adapter: a tool invocation is validated against a
    Zod schema, turned into one HTTP request to the upstream API, and the
    answer (or whatever was thrown on the way) is reshaped into a tool
    response.  The embedding keeps that shape: JavaScript values are a JSON
    datatype, [async] handlers run in a small monad that logs the upstream
    requests and carries thrown values, and [try]/[catch] is a combinator
    of that monad. *)

From Stdlib Require Import ZArith List String Ascii Bool Lia.
From Stdlib Require Import Decimal DecimalFacts DecimalPos DecimalZ DecimalString.
Import ListNotations.

Local Open Scope string_scope.
Local Open Scope Z_scope.

(** ** JavaScript values *)

(** The values that travel through the server are JSON documents: tool
    arguments arrive over JSON-RPC, upstream bodies are decoded by axios.
    Numbers are restricted to the safe integers (HTTP statuses, counts): a
    [JNum n] stands for a JavaScript number only when [n] is one, and what
    the functions below print for another [n] is no statement about the
    code.  A string is its sequence of UTF-8 bytes; an object is the list
    of its own properties in enumeration order.  [undefined] is not a JSON
    value: a position that may hold it has type [option JSON], with [None]
    for [undefined]. *)
#[local] Unset Elimination Schemes.
Inductive JSON : Type :=
| JNull
| JBool (b : bool)
| JNum (n : Z)
| JStr (s : string)
| JArr (items : list JSON)
| JObj (props : list (string * JSON)).
#[local] Set Elimination Schemes.

(** Own-property lookup in a property list. *)
Fixpoint assoc (k : string) (props : list (string * JSON)) : option JSON :=
  match props with
  | [] => None
  | (k', v) :: rest => if String.eqb k k' then Some v else assoc k rest
  end.

(** [v.k] for a value that is neither [null] nor [undefined].  The two
    property names the server reads ([message], [translations]) are not
    inherited from any prototype, so only objects can answer. *)
Definition get_prop (v : JSON) (k : string) : option JSON :=
  match v with
  | JObj props => assoc k props
  | _ => None
  end.

(** [v?.k]: [undefined] when [v] is [null] or [undefined]. *)
Definition get_prop_opt (v : option JSON) (k : string) : option JSON :=
  match v with
  | Some w => get_prop w k
  | None => None
  end.

(** JavaScript truthiness (ToBoolean). *)
Definition truthy (v : option JSON) : bool :=
  match v with
  | None => false
  | Some JNull => false
  | Some (JBool b) => b
  | Some (JNum n) => negb (n =? 0)
  | Some (JStr s) => negb (String.eqb s EmptyString)
  | Some (JArr _) => true
  | Some (JObj _) => true
  end.

(** Decimal rendering of an integer: Number::toString on a safe integer,
    which prints all its digits (the exponent form starts at 1e21, far
    above the safe integers). *)
Definition string_of_Z (n : Z) : string :=
  match Z.to_int n with
  | Decimal.Pos u => NilEmpty.string_of_uint u
  | Decimal.Neg u => String "-" (NilEmpty.string_of_uint u)
  end.

(** ToString, as applied by template literals and by [String(v)]; [None]
    when the conversion throws a [TypeError].  A plain object prints
    through [Object.prototype.toString] unless it has an own [toString]
    property: a property of a JSON document is never callable, and the
    inherited [valueOf] returns the object itself, so the conversion has no
    primitive to return.  An array joins its elements with commas, [null]
    printing as nothing, and throws when an element does. *)
Fixpoint ToString (v : JSON) : option string :=
  match v with
  | JNull => Some "null"
  | JBool true => Some "true"
  | JBool false => Some "false"
  | JNum n => Some (string_of_Z n)
  | JStr s => Some s
  | JArr items =>
      (fix join (l : list JSON) : option string :=
         match l with
         | [] => Some EmptyString
         | x :: rest =>
             match (match x with JNull => Some EmptyString | _ => ToString x end),
                   join rest with
             | Some first, Some others =>
                 Some (match rest with
                       | [] => first
                       | _ => first ++ "," ++ others
                       end)
             | _, _ => None
             end
         end) items
  | JObj props =>
      match assoc "toString" props with
      | Some _ => None
      | None => Some "[object Object]"
      end
  end.

Definition ToString_opt (v : option JSON) : option string :=
  match v with
  | None => Some "undefined"
  | Some w => ToString w
  end.

(** The message of the [TypeError] of a failed conversion. *)
Definition cannot_convert : string :=
  "Cannot convert object to primitive value".

(** ** JSON.stringify *)

Definition nl : string := String "010" EmptyString.
Definition dquote : string := String "034" EmptyString.
Definition backslash : string := String "092" EmptyString.

Definition hex_digit (n : N) : ascii :=
  if (n <? 10)%N then ascii_of_N (48 + n) else ascii_of_N (87 + n).

(** QuoteJSONString on one code unit. *)
Definition quote_char (c : ascii) : string :=
  let n := N_of_ascii c in
  if (n =? 8)%N then backslash ++ "b"
  else if (n =? 9)%N then backslash ++ "t"
  else if (n =? 10)%N then backslash ++ "n"
  else if (n =? 12)%N then backslash ++ "f"
  else if (n =? 13)%N then backslash ++ "r"
  else if (n =? 34)%N then backslash ++ dquote
  else if (n =? 92)%N then backslash ++ backslash
  else if (n <? 32)%N then
    backslash ++ "u00" ++ String (hex_digit (n / 16)) (String (hex_digit (n mod 16)) EmptyString)
  else String c EmptyString.

Fixpoint quote_chars (s : string) : string :=
  match s with
  | EmptyString => EmptyString
  | String c rest => quote_char c ++ quote_chars rest
  end.

Definition QuoteJSONString (s : string) : string :=
  dquote ++ quote_chars s ++ dquote.

Definition is_empty (s : string) : bool :=
  match s with EmptyString => true | _ => false end.

(** SerializeJSONProperty with the running indentation [indent] and the
    unit [gap] ([gap] is empty for [JSON.stringify(v)] and two spaces for
    [JSON.stringify(v, null, 2)]). *)
Fixpoint SerializeJSON (gap indent : string) (v : JSON) : string :=
  match v with
  | JNull => "null"
  | JBool true => "true"
  | JBool false => "false"
  | JNum n => string_of_Z n
  | JStr s => QuoteJSONString s
  | JArr items =>
      let stepback := indent in
      let indent := indent ++ gap in
      match items with
      | [] => "[]"
      | _ =>
          let partial := map (SerializeJSON gap indent) items in
          if is_empty gap then "[" ++ String.concat "," partial ++ "]"
          else "[" ++ nl ++ indent
                   ++ String.concat ("," ++ nl ++ indent) partial
                   ++ nl ++ stepback ++ "]"
      end
  | JObj props =>
      let stepback := indent in
      let indent := indent ++ gap in
      match props with
      | [] => "{}"
      | _ =>
          let member (p : string * JSON) :=
            QuoteJSONString (fst p) ++ ":"
              ++ (if is_empty gap then EmptyString else " ")
              ++ SerializeJSON gap indent (snd p) in
          let partial := map member props in
          if is_empty gap then "{" ++ String.concat "," partial ++ "}"
          else "{" ++ nl ++ indent
                   ++ String.concat ("," ++ nl ++ indent) partial
                   ++ nl ++ stepback ++ "}"
      end
  end.

(** [JSON.stringify(v)]; [undefined] serializes to [undefined]. *)
Definition JSON_stringify (v : option JSON) : option string :=
  option_map (SerializeJSON EmptyString EmptyString) v.

(** [JSON.stringify(v, null, 2)]. *)
Definition JSON_stringify_2 (v : option JSON) : option string :=
  option_map (SerializeJSON "  " EmptyString) v.

(** ** JSON.parse *)

(** The reader of a JSON text, on the same value model: integer literals
    only (a fraction or an exponent is outside the model and is refused),
    and a [\u] escape decoded to the UTF-8 bytes of its code point
    (surrogates are outside the model). *)

Definition is_ws (c : ascii) : bool :=
  let n := N_of_ascii c in
  (n =? 32)%N || (n =? 9)%N || (n =? 10)%N || (n =? 13)%N.

Fixpoint skip_ws (s : string) : string :=
  match s with
  | String c rest => if is_ws c then skip_ws rest else s
  | EmptyString => s
  end.

Fixpoint strip_prefix (p s : string) : option string :=
  match p, s with
  | EmptyString, _ => Some s
  | String a p', String b s' => if Ascii.eqb a b then strip_prefix p' s' else None
  | String _ _, EmptyString => None
  end.

Definition hex_value (c : ascii) : option N :=
  let n := N_of_ascii c in
  if (48 <=? n)%N && (n <=? 57)%N then Some (n - 48)%N
  else if (97 <=? n)%N && (n <=? 102)%N then Some (n - 87)%N
  else if (65 <=? n)%N && (n <=? 70)%N then Some (n - 55)%N
  else None.

Definition hex4 (a b c d : ascii) : option N :=
  match hex_value a, hex_value b, hex_value c, hex_value d with
  | Some x, Some y, Some z, Some w => Some (((x * 16 + y) * 16 + z) * 16 + w)%N
  | _, _, _, _ => None
  end.

(** The UTF-8 bytes of a code point of the Basic Multilingual Plane. *)
Definition utf8_encode (cp : N) : option string :=
  if (cp <? 128)%N then Some (String (ascii_of_N cp) EmptyString)
  else if (cp <? 2048)%N then
    Some (String (ascii_of_N (192 + cp / 64))
            (String (ascii_of_N (128 + cp mod 64)) EmptyString))
  else if (55296 <=? cp)%N && (cp <=? 57343)%N then None
  else
    Some (String (ascii_of_N (224 + cp / 4096))
            (String (ascii_of_N (128 + (cp / 64) mod 64))
               (String (ascii_of_N (128 + cp mod 64)) EmptyString))).

Definition simple_escape (e : ascii) : option ascii :=
  let n := N_of_ascii e in
  if (n =? 34)%N then Some "034"%char
  else if (n =? 92)%N then Some "092"%char
  else if (n =? 47)%N then Some "/"%char
  else if (n =? 98)%N then Some "008"%char
  else if (n =? 102)%N then Some "012"%char
  else if (n =? 110)%N then Some "010"%char
  else if (n =? 114)%N then Some "013"%char
  else if (n =? 116)%N then Some "009"%char
  else None.

(** The characters of a string literal after its opening quote, up to and
    including the closing quote. *)
Fixpoint parse_chars (s : string) : option (string * string) :=
  match s with
  | EmptyString => None
  | String c rest =>
      let n := N_of_ascii c in
      if (n =? 34)%N then Some (EmptyString, rest)
      else if (n =? 92)%N then
        match rest with
        | String e rest1 =>
            if (N_of_ascii e =? 117)%N then
              match rest1 with
              | String h1 (String h2 (String h3 (String h4 rest2))) =>
                  match hex4 h1 h2 h3 h4 with
                  | Some cp =>
                      match utf8_encode cp, parse_chars rest2 with
                      | Some bytes, Some (str, rest3) => Some (bytes ++ str, rest3)
                      | _, _ => None
                      end
                  | None => None
                  end
              | _ => None
              end
            else
              match simple_escape e, parse_chars rest1 with
              | Some d, Some (str, rest2) => Some (String d str, rest2)
              | _, _ => None
              end
        | EmptyString => None
        end
      else if (n <? 32)%N then None
      else
        match parse_chars rest with
        | Some (str, rest1) => Some (String c str, rest1)
        | None => None
        end
  end.

Definition digit_of (c : ascii) (u : uint) : option uint :=
  uint_of_char c (Some u).

Fixpoint parse_digits (s : string) : uint * string :=
  match s with
  | String c rest =>
      match digit_of c Nil with
      | Some _ =>
          let (u, rest1) := parse_digits rest in
          match digit_of c u with
          | Some u' => (u', rest1)
          | None => (Nil, s)
          end
      | None => (Nil, s)
      end
  | EmptyString => (Nil, s)
  end.

(** What may not follow the integer part of a number in this model. *)
Definition starts_fraction (s : string) : bool :=
  match s with
  | String c _ =>
      let n := N_of_ascii c in (n =? 46)%N || (n =? 101)%N || (n =? 69)%N
  | EmptyString => false
  end.

(** The digits of a JSON integer: one zero, or no leading zero. *)
Definition canonical_uint (u : uint) : bool :=
  match u with
  | Nil => false
  | D0 Nil => true
  | D0 _ => false
  | _ => true
  end.

Definition parse_integer (negative : bool) (s : string) : option (JSON * string) :=
  let (u, rest) := parse_digits s in
  if canonical_uint u && negb (starts_fraction rest)
  then Some (JNum (Z.of_int (if negative then Decimal.Neg u else Decimal.Pos u)),
             rest)
  else None.

Definition parse_number (s : string) : option (JSON * string) :=
  match s with
  | String c rest =>
      if (N_of_ascii c =? 45)%N then parse_integer true rest
      else parse_integer false s
  | EmptyString => None
  end.

(** The rest of an array after a first element has been announced:
    elements separated by commas, closed by a bracket. *)
Fixpoint parse_elements (value : string -> option (JSON * string)) (fuel : nat)
         (s : string) : option (list JSON * string) :=
  match fuel with
  | O => None
  | S fuel' =>
      match value s with
      | Some (v, rest) =>
          match skip_ws rest with
          | String c rest1 =>
              if (N_of_ascii c =? 44)%N then
                match parse_elements value fuel' rest1 with
                | Some (vs, rest2) => Some (v :: vs, rest2)
                | None => None
                end
              else if (N_of_ascii c =? 93)%N then Some ([v], rest1)
              else None
          | EmptyString => None
          end
      | None => None
      end
  end.

(** The members of an object, likewise. *)
Fixpoint parse_members (value : string -> option (JSON * string)) (fuel : nat)
         (s : string) : option (list (string * JSON) * string) :=
  match fuel with
  | O => None
  | S fuel' =>
      match skip_ws s with
      | String q rest =>
          if (N_of_ascii q =? 34)%N then
            match parse_chars rest with
            | Some (k, rest1) =>
                match skip_ws rest1 with
                | String c rest2 =>
                    if (N_of_ascii c =? 58)%N then
                      match value rest2 with
                      | Some (v, rest3) =>
                          match skip_ws rest3 with
                          | String d rest4 =>
                              if (N_of_ascii d =? 44)%N then
                                match parse_members value fuel' rest4 with
                                | Some (ms, rest5) => Some ((k, v) :: ms, rest5)
                                | None => None
                                end
                              else if (N_of_ascii d =? 125)%N
                                   then Some ([(k, v)], rest4)
                              else None
                          | EmptyString => None
                          end
                      | None => None
                      end
                    else None
                | EmptyString => None
                end
            | None => None
            end
          else None
      | EmptyString => None
      end
  end.

(** A string is an array index when it is the canonical decimal form of an
    integer below 2^32 - 1. *)
Definition array_index (k : string) : option Z :=
  match parse_digits k with
  | (u, EmptyString) =>
      let n := Z.of_int (Decimal.Pos u) in
      if String.eqb (string_of_Z n) k && (n <? 4294967295) then Some n else None
  | _ => None
  end.

(** Where a new key goes among the own properties of an object: array
    indices first, in ascending order, then the other keys in the order of
    their creation. *)
Fixpoint insert_prop (k : string) (v : JSON) (props : list (string * JSON))
  : list (string * JSON) :=
  match props with
  | [] => [(k, v)]
  | (k', v') :: rest =>
      match array_index k, array_index k' with
      | Some n, Some n' =>
          if n <? n' then (k, v) :: props else (k', v') :: insert_prop k v rest
      | Some _, None => (k, v) :: props
      | None, _ => (k', v') :: insert_prop k v rest
      end
  end.

Fixpoint replace_prop (k : string) (v : JSON) (props : list (string * JSON))
  : list (string * JSON) :=
  match props with
  | [] => []
  | (k', v') :: rest =>
      if String.eqb k k' then (k', v) :: rest
      else (k', v') :: replace_prop k v rest
  end.

(** CreateDataProperty: a key already present keeps its place and takes
    the new value. *)
Definition set_prop (props : list (string * JSON)) (kv : string * JSON)
  : list (string * JSON) :=
  match assoc (fst kv) props with
  | Some _ => replace_prop (fst kv) (snd kv) props
  | None => insert_prop (fst kv) (snd kv) props
  end.

Definition build_object (members : list (string * JSON)) : list (string * JSON) :=
  fold_left set_prop members [].

Fixpoint parse_value (fuel : nat) (s : string) : option (JSON * string) :=
  match fuel with
  | O => None
  | S fuel' =>
      match skip_ws s with
      | EmptyString => None
      | String c rest =>
          let n := N_of_ascii c in
          if (n =? 110)%N then
            option_map (fun r => (JNull, r)) (strip_prefix "ull" rest)
          else if (n =? 116)%N then
            option_map (fun r => (JBool true, r)) (strip_prefix "rue" rest)
          else if (n =? 102)%N then
            option_map (fun r => (JBool false, r)) (strip_prefix "alse" rest)
          else if (n =? 34)%N then
            option_map (fun p => (JStr (fst p), snd p)) (parse_chars rest)
          else if (n =? 91)%N then
            match skip_ws rest with
            | String d rest1 =>
                if (N_of_ascii d =? 93)%N then Some (JArr [], rest1)
                else
                  option_map (fun p => (JArr (fst p), snd p))
                             (parse_elements (parse_value fuel') fuel' rest)
            | EmptyString => None
            end
          else if (n =? 123)%N then
            match skip_ws rest with
            | String d rest1 =>
                if (N_of_ascii d =? 125)%N then Some (JObj [], rest1)
                else
                  option_map (fun p => (JObj (build_object (fst p)), snd p))
                             (parse_members (parse_value fuel') fuel' rest)
            | EmptyString => None
            end
          else parse_number (String c rest)
      end
  end.

(** [JSON.parse(s)]: one value, then nothing but white space; [None] is a
    [SyntaxError]. *)
Definition JSON_parse (s : string) : option JSON :=
  match parse_value (S (String.length s)) s with
  | Some (v, rest) => if is_empty (skip_ws rest) then Some v else None
  | None => None
  end.

(** The values on which the model is the JavaScript behaviour: numbers are
    safe integers, and the properties of an object are listed the way an
    object enumerates them. *)
Fixpoint well_formed (v : JSON) : Prop :=
  match v with
  | JNum n => - 9007199254740991 <= n <= 9007199254740991
  | JArr items =>
      (fix all (l : list JSON) : Prop :=
         match l with
         | [] => True
         | x :: rest => well_formed x /\ all rest
         end) items
  | JObj props =>
      build_object props = props /\
      (fix all (l : list (string * JSON)) : Prop :=
         match l with
         | [] => True
         | p :: rest => well_formed (snd p) /\ all rest
         end) props
  | _ => True
  end.

(** A string of white space only. *)
Fixpoint is_blank (s : string) : bool :=
  match s with
  | EmptyString => true
  | String c rest => is_ws c && is_blank rest
  end.

(** What may follow a value in a JSON text: the end, or a character that
    cannot continue a number. *)
Definition value_end (s : string) : bool :=
  match s with
  | EmptyString => true
  | String c _ =>
      match digit_of c Nil with
      | Some _ => false
      | None => negb (starts_fraction s)
      end
  end.

(** The number of nodes of a value. *)
Fixpoint size (v : JSON) : nat :=
  match v with
  | JArr items => S (fold_right (fun x n => (size x + n)%nat) O items)
  | JObj props => S (fold_right (fun p n => (size (snd p) + n)%nat) O props)
  | _ => 1%nat
  end.

(** ** Zod schemas *)

(** A path segment of a validation issue: a property name or an index. *)
Inductive PathSeg : Type :=
| Key (k : string)
| Index (i : nat).

(** The issues the two schemas can raise, with the fields Zod records.
    [invalid_enum_type] is the [invalid_type] issue of [z.enum], which
    writes its fields in another order than the other schemas do. *)
Inductive ZodIssue : Type :=
| invalid_type (expected received : string) (path : list PathSeg)
| invalid_enum_type (expected received : string) (path : list PathSeg)
| too_small (minimum : Z) (message : string) (path : list PathSeg)
| invalid_enum_value (received : string) (options : list string)
                     (path : list PathSeg).

Definition issue_path (i : ZodIssue) : list PathSeg :=
  match i with
  | invalid_type _ _ p => p
  | invalid_enum_type _ _ p => p
  | too_small _ _ p => p
  | invalid_enum_value _ _ p => p
  end.

Inductive ZodResult (A : Type) : Type :=
| ZodOk (value : A)
| ZodFail (errors : list ZodIssue).
Arguments ZodOk {A} value.
Arguments ZodFail {A} errors.

Definition issues_of {A} (r : ZodResult A) : list ZodIssue :=
  match r with
  | ZodOk _ => []
  | ZodFail errors => errors
  end.

(** Zod's [getParsedType]. *)
Definition getParsedType (v : option JSON) : string :=
  match v with
  | None => "undefined"
  | Some JNull => "null"
  | Some (JBool _) => "boolean"
  | Some (JNum _) => "number"
  | Some (JStr _) => "string"
  | Some (JArr _) => "array"
  | Some (JObj _) => "object"
  end.

(** A schema is a function from the path walked so far and the input found
    there to a result. *)
Definition Schema (A : Type) : Type :=
  list PathSeg -> option JSON -> ZodResult A.

(** [z.string()] *)
Definition z_string : Schema string :=
  fun path input =>
    match input with
    | Some (JStr s) => ZodOk s
    | _ => ZodFail [invalid_type "string" (getParsedType input) path]
    end.

(** [inner.optional()] *)
Definition z_optional {A} (inner : Schema A) : Schema (option A) :=
  fun path input =>
    match input with
    | None => ZodOk None
    | Some _ =>
        match inner path input with
        | ZodOk a => ZodOk (Some a)
        | ZodFail errors => ZodFail errors
        end
    end.

(** The elements of an array, each parsed at its index; every issue is
    kept. *)
Fixpoint z_elements {A} (elem : Schema A) (path : list PathSeg) (i : nat)
         (items : list JSON) : ZodResult (list A) :=
  match items with
  | [] => ZodOk []
  | x :: rest =>
      let r := elem (path ++ [Index i])%list (Some x) in
      let rs := z_elements elem path (S i) rest in
      match r, rs with
      | ZodOk a, ZodOk l => ZodOk (a :: l)
      | _, _ => ZodFail (issues_of r ++ issues_of rs)%list
      end
  end.

(** [z.array(elem).min(minimum, message)] *)
Definition z_array_min {A} (elem : Schema A) (minimum : nat) (message : string)
  : Schema (list A) :=
  fun path input =>
    match input with
    | Some (JArr items) =>
        let size_issues :=
          if (List.length items <? minimum)%nat
          then [too_small (Z.of_nat minimum) message path] else [] in
        let rs := z_elements elem path 0 items in
        match size_issues, rs with
        | [], ZodOk l => ZodOk l
        | _, _ => ZodFail (size_issues ++ issues_of rs)%list
        end
    | _ => ZodFail [invalid_type "array" (getParsedType input) path]
    end.

Definition quoted (s : string) : string := "'" ++ s ++ "'".

(** Zod's [util.joinValues]. *)
Definition joinValues (values : list string) : string :=
  String.concat " | " (map quoted values).

Fixpoint mem_string (s : string) (l : list string) : bool :=
  match l with
  | [] => false
  | x :: rest => String.eqb s x || mem_string s rest
  end.

(** [z.enum(values)] *)
Definition z_enum (values : list string) : Schema string :=
  fun path input =>
    match input with
    | Some (JStr s) =>
        if mem_string s values then ZodOk s
        else ZodFail [invalid_enum_value s values path]
    | _ =>
        ZodFail [invalid_enum_type (joinValues values) (getParsedType input) path]
    end.

Record TranslateTextInput : Type := {
  text : list string;
  target_lang : string;
  source_lang : option string
}.

Record ListLanguagesInput : Type := {
  type : option string
}.

(** [z.object({ text, target_lang, source_lang })]: the input must be an
    object; each declared key is parsed in declaration order (a missing key
    parses [undefined]), unknown keys are dropped, and the issues of all
    keys are reported together. *)
Definition TranslateTextInputSchema : Schema TranslateTextInput :=
  fun path input =>
    match input with
    | Some (JObj props) =>
        let r_text :=
          z_array_min z_string 1 "The 'text' array cannot be empty."
                      (path ++ [Key "text"])%list (assoc "text" props) in
        let r_target :=
          z_string (path ++ [Key "target_lang"])%list (assoc "target_lang" props) in
        let r_source :=
          z_optional z_string (path ++ [Key "source_lang"])%list
                     (assoc "source_lang" props) in
        match r_text, r_target, r_source with
        | ZodOk t, ZodOk tl, ZodOk sl =>
            ZodOk {| text := t; target_lang := tl; source_lang := sl |}
        | _, _, _ =>
            ZodFail (issues_of r_text ++ issues_of r_target
                       ++ issues_of r_source)%list
        end
    | _ => ZodFail [invalid_type "object" (getParsedType input) path]
    end.

(** [z.object({ type: z.enum(['source', 'target']).optional() })] *)
Definition ListLanguagesInputSchema : Schema ListLanguagesInput :=
  fun path input =>
    match input with
    | Some (JObj props) =>
        match z_optional (z_enum ["source"; "target"]) (path ++ [Key "type"])%list
                         (assoc "type" props) with
        | ZodOk t => ZodOk {| type := t |}
        | ZodFail errors => ZodFail errors
        end
    | _ => ZodFail [invalid_type "object" (getParsedType input) path]
    end.

(** [error.errors] as the array of objects that Zod exposes: the fields of
    the issue in the order the schema wrote them, then [path] and
    [message] (a [message] the schema gave stays where it was written). *)
Definition path_json (path : list PathSeg) : JSON :=
  JArr (map (fun seg => match seg with
                        | Key k => JStr k
                        | Index i => JNum (Z.of_nat i)
                        end) path).

Definition issue_code (i : ZodIssue) : string :=
  match i with
  | invalid_type _ _ _ => "invalid_type"
  | invalid_enum_type _ _ _ => "invalid_type"
  | too_small _ _ _ => "too_small"
  | invalid_enum_value _ _ _ => "invalid_enum_value"
  end.

(** The message of an issue: the one given with the schema, or the one of
    Zod's default error map. *)
Definition issue_message (i : ZodIssue) : string :=
  match i with
  | invalid_type expected received _
  | invalid_enum_type expected received _ =>
      if String.eqb received "undefined" then "Required"
      else "Expected " ++ expected ++ ", received " ++ received
  | too_small _ message _ => message
  | invalid_enum_value received options _ =>
      "Invalid enum value. Expected " ++ joinValues options
        ++ ", received " ++ quoted received
  end.

Definition issue_json (i : ZodIssue) : JSON :=
  match i with
  | invalid_type expected received path =>
      JObj [("code", JStr (issue_code i));
            ("expected", JStr expected);
            ("received", JStr received);
            ("path", path_json path);
            ("message", JStr (issue_message i))]
  | invalid_enum_type expected received path =>
      JObj [("expected", JStr expected);
            ("received", JStr received);
            ("code", JStr (issue_code i));
            ("path", path_json path);
            ("message", JStr (issue_message i))]
  | too_small minimum message path =>
      JObj [("code", JStr (issue_code i));
            ("minimum", JNum minimum);
            ("type", JStr "array");
            ("inclusive", JBool true);
            ("exact", JBool false);
            ("message", JStr (issue_message i));
            ("path", path_json path)]
  | invalid_enum_value received options path =>
      JObj [("received", JStr received);
            ("code", JStr (issue_code i));
            ("options", JArr (map JStr options));
            ("path", path_json path);
            ("message", JStr (issue_message i))]
  end.

Definition errors_json (errors : list ZodIssue) : JSON :=
  JArr (map issue_json errors).

(** ** Errors, requests and responses *)

(** The JSON-RPC error codes of the SDK's [ErrorCode] enum. *)
Inductive ErrorCode : Type :=
| ParseError
| InvalidRequest
| MethodNotFound
| InvalidParams
| InternalError.

(** An [McpError] as the handler reads it: [code], [message] and [data]
    ([None] when the error carries no data). *)
Module McpError.
Record t : Type := make {
  code : ErrorCode;
  message : string;
  data : option JSON
}.
End McpError.

Module AxiosResponse.
Record t : Type := make {
  status : Z;
  data : JSON
}.
End AxiosResponse.

(** An [AxiosError]: the transport-level [message], and the HTTP response
    when the upstream answered at all. *)
Module AxiosError.
Record t : Type := make {
  message : string;
  response : option AxiosResponse.t
}.
End AxiosError.

(** Whatever a handler may throw, split the way [handleToolError] tells
    errors apart. *)
Inductive Thrown : Type :=
| ThrownMcpError (e : McpError.t)
| ThrownZodError (errors : list ZodIssue)
| ThrownAxiosError (e : AxiosError.t)
| ThrownError (message : string)
| ThrownValue (v : option JSON).

Module TextContent.
Record t : Type := make {
  type : string;
  text : option string;
  mimeType : option string
}.
End TextContent.

(** The result of a tool call; [isError] and [errorCode] are absent on
    success. *)
Record ToolResponse : Type := {
  content : list TextContent.t;
  isError : option bool;
  errorCode : option ErrorCode
}.

(** [request.params] of a CallTool request. *)
Record CallToolParams : Type := {
  name : string;
  arguments : option JSON
}.

(** ** The upstream and the handler monad *)

(** The two calls made through the axios instance. *)
Inductive HttpRequest : Type :=
| POST (url : string) (body : JSON)
| GET (url : string) (params : list (string * JSON)).

Inductive Settled : Type :=
| Fulfilled (response : AxiosResponse.t)
| Rejected (reason : Thrown).

Definition Upstream : Type := HttpRequest -> Settled.

Inductive Outcome (A : Type) : Type :=
| Returned (value : A)
| Threw (error : Thrown).
Arguments Returned {A} value.
Arguments Threw {A} error.

(** An [async] computation: it reads the upstream, appends the requests it
    issues to the log, and either returns or throws. *)
Definition Async (A : Type) : Type :=
  Upstream -> list HttpRequest -> Outcome A * list HttpRequest.

Definition ret {A} (a : A) : Async A :=
  fun _ log => (Returned a, log).

Definition throw {A} (e : Thrown) : Async A :=
  fun _ log => (Threw e, log).

Definition bind {A B} (m : Async A) (k : A -> Async B) : Async B :=
  fun up log =>
    match m up log with
    | (Returned a, log') => k a up log'
    | (Threw e, log') => (Threw e, log')
    end.

Definition try_catch {A} (m : Async A) (handler : Thrown -> Async A) : Async A :=
  fun up log =>
    match m up log with
    | (Returned a, log') => (Returned a, log')
    | (Threw e, log') => handler e up log'
    end.

Notation "x <- m ;; k" := (bind m (fun x => k))
  (at level 61, m at next level, right associativity).

(** [await axiosInstance.post(...)] / [.get(...)]: one request goes out and
    the promise settles as the upstream decides. *)
Definition request (r : HttpRequest) : Async AxiosResponse.t :=
  fun up log =>
    match up r with
    | Fulfilled response => (Returned response, log ++ [r])%list
    | Rejected reason => (Threw reason, log ++ [r])%list
    end.

(** [schema.parse(args)]: the value, or a thrown [ZodError]. *)
Definition parse {A} (schema : Schema A) (args : option JSON) : Async A :=
  match schema [] args with
  | ZodOk a => ret a
  | ZodFail errors => throw (ThrownZodError errors)
  end.

(** [v.k] as an expression: reading a property of [null] throws a
    [TypeError]. *)
Definition member (v : JSON) (k : string) : Async (option JSON) :=
  match v with
  | JNull =>
      throw (ThrownError
               ("Cannot read properties of null (reading '" ++ k ++ "')"))
  | _ => ret (get_prop v k)
  end.

(** A computation that has its outcome already. *)
Definition settle {A} (o : Outcome A) : Async A :=
  fun _ log => (o, log).

Definition run {A} (m : Async A) (up : Upstream) : Outcome A * list HttpRequest :=
  m up [].

(** A template literal hole filled with a string that may be [undefined]. *)
Definition string_or_undefined (s : option string) : string :=
  match s with
  | Some w => w
  | None => "undefined"
  end.

(** ** The tool catalogue *)

(** A tool as the ListTools handler describes it; [inputSchema] is the JSON
    Schema literal of the source. *)
Module Tool.
Record t : Type := make {
  name : string;
  description : string;
  inputSchema : JSON
}.
End Tool.

(** The two entries of the [tools] array of the ListTools handler. *)
Definition translate_text_tool : Tool.t :=
  Tool.make "translate_text"
    "Translates one or more text strings using the DeepL API."
    (JObj [("type", JStr "object");
           ("properties",
            JObj [("text",
                   JObj [("type", JStr "array");
                         ("items", JObj [("type", JStr "string")]);
                         ("description", JStr "Text(s) to translate")]);
                  ("target_lang",
                   JObj [("type", JStr "string");
                         ("description",
                          JStr "Target language code (e.g., DE, FR)")]);
                  ("source_lang",
                   JObj [("type", JStr "string");
                         ("description",
                          JStr "Source language code; auto-detected if omitted")])]);
           ("required", JArr [JStr "text"; JStr "target_lang"])]).

Definition list_languages_tool : Tool.t :=
  Tool.make "list_languages"
    "Retrieves the list of languages supported by the DeepL API."
    (JObj [("type", JStr "object");
           ("properties",
            JObj [("type",
                   JObj [("type", JStr "string");
                         ("enum", JArr [JStr "source"; JStr "target"]);
                         ("description",
                          JStr "Filter by 'source' or 'target' languages")])]);
           ("required", JArr [])]).

(** The [tools] array the ListTools handler returns. *)
Definition listTools : list Tool.t :=
  [translate_text_tool; list_languages_tool].

(** The strings of a JSON array of strings (other entries are skipped). *)
Fixpoint strings_of (items : list JSON) : list string :=
  match items with
  | [] => []
  | JStr s :: rest => s :: strings_of rest
  | _ :: rest => strings_of rest
  end.

(** The keys an input schema lists under [required]. *)
Definition required_keys (schema : JSON) : list string :=
  match get_prop schema "required" with
  | Some (JArr items) => strings_of items
  | _ => []
  end.

(** The values an input schema allows for the property [k] under [enum]. *)
Definition enum_values (schema : JSON) (k : string) : list string :=
  match get_prop_opt (get_prop_opt (get_prop schema "properties") k) "enum" with
  | Some (JArr items) => strings_of items
  | _ => []
  end.

(** The [message] the SDK's [McpError] constructor builds, used where a
    concrete SDK is needed: the numeric code goes in front. *)
Definition ErrorCode_number (code : ErrorCode) : Z :=
  match code with
  | ParseError => -32700
  | InvalidRequest => -32600
  | MethodNotFound => -32601
  | InvalidParams => -32602
  | InternalError => -32603
  end.

Definition sdk_message (code : ErrorCode) (message : string) : string :=
  "MCP error " ++ string_of_Z (ErrorCode_number code) ++ ": " ++ message.

(** ** The server *)

Section Server.

(** The [message] property that the SDK's [McpError] constructor gives an
    error built from a code and a message argument. *)
Variable McpError_message : ErrorCode -> string -> string.

(** [new McpError(code, message, data)] *)
Definition new_McpError (code : ErrorCode) (message : string)
           (data : option JSON) : McpError.t :=
  McpError.make code (McpError_message code message) data.

(** The error code chosen for an upstream failure, from the status of the
    response ([None] when there was no response). *)
Definition errorCode_for (status : option Z) : ErrorCode :=
  let is_status (p : Z -> bool) :=
    match status with Some n => p n | None => false end in
  let errorCode := InternalError in
  let errorCode :=
    if is_status (fun n => n =? 400) then InvalidParams else errorCode in
  let errorCode :=
    if is_status (fun n => negb (n =? 0) && (401 <=? n) && (n <? 500)
                           && negb (n =? 400))
    then InvalidRequest else errorCode in
  let errorCode :=
    if is_status (fun n => negb (n =? 0) && (500 <=? n))
    then InternalError else errorCode in
  errorCode.

(** The [mcpError] that [handleToolError] settles on.  The template
    literal of the upstream branch and [String(error)] of the last branch
    convert a value to a string, and throw when it cannot be converted. *)
Definition mcpError_of (error : Thrown) : Outcome McpError.t :=
  match error with
  | ThrownMcpError e => Returned e
  | ThrownZodError errors =>
      Returned (new_McpError InvalidParams "Input validation failed"
                             (Some (errors_json errors)))
  | ThrownAxiosError axiosError =>
      let status := option_map AxiosResponse.status (AxiosError.response axiosError) in
      let data := option_map AxiosResponse.data (AxiosError.response axiosError) in
      let message :=
        if truthy (get_prop_opt data "message")
        then get_prop_opt data "message"
        else Some (JStr (AxiosError.message axiosError)) in
      let errorCode := errorCode_for status in
      match ToString_opt message with
      | Some text =>
          Returned
            (new_McpError errorCode
               ("DeepL API Error (" ++ string_or_undefined (option_map string_of_Z status)
                  ++ "): " ++ text)
               data)
      | None => Threw (ThrownError cannot_convert)
      end
  | ThrownError message =>
      Returned (new_McpError InternalError
                             ("An unexpected error occurred: " ++ message) None)
  | ThrownValue v =>
      match ToString_opt v with
      | Some text =>
          Returned (new_McpError InternalError
                                 ("An unexpected error occurred: " ++ text) None)
      | None => Threw (ThrownError cannot_convert)
      end
  end.

(** The response built from the [mcpError]: its message, and its details
    when they are truthy. *)
Definition error_response (mcpError : McpError.t) : ToolResponse :=
  let errorContent :=
    TextContent.make "text"
      (Some ("Error: " ++ McpError.message mcpError
               ++ (if truthy (McpError.data mcpError)
                   then nl ++ "Details: "
                           ++ string_or_undefined
                                (JSON_stringify (McpError.data mcpError))
                   else EmptyString)))
      None in
  {| content := [errorContent];
     isError := Some true;
     errorCode := Some (McpError.code mcpError) |}.

(** [handleToolError]: a response, or the [TypeError] thrown while the
    error was being described.  The line it logs to stderr for an
    unexpected error is not part of the model. *)
Definition handleToolError (error : Thrown) : Outcome ToolResponse :=
  match mcpError_of error with
  | Returned mcpError => Returned (error_response mcpError)
  | Threw fault => Threw fault
  end.

Definition callTranslateText (args : option JSON) : Async ToolResponse :=
  validatedArgs <- parse TranslateTextInputSchema args ;;
  response <-
    request
      (POST "/v2/translate"
         (JObj ([("text", JArr (map JStr (text validatedArgs)));
                 ("target_lang", JStr (target_lang validatedArgs))]
                  ++ match source_lang validatedArgs with
                     | Some s =>
                         if truthy (Some (JStr s))
                         then [("source_lang", JStr s)] else []
                     | None => []
                     end)%list)) ;;
  translations <- member (AxiosResponse.data response) "translations" ;;
  let content :=
    TextContent.make "text" (JSON_stringify_2 translations)
                     (Some "application/json") in
  ret {| content := [content]; isError := None; errorCode := None |}.

Definition callListLanguages (args : option JSON) : Async ToolResponse :=
  validatedArgs <- parse ListLanguagesInputSchema args ;;
  let params :=
    match type validatedArgs with
    | Some t => if truthy (Some (JStr t)) then [("type", JStr t)] else []
    | None => []
    end in
  response <- request (GET "/v2/languages" params) ;;
  let content :=
    TextContent.make "text"
                     (JSON_stringify_2 (Some (AxiosResponse.data response)))
                     (Some "application/json") in
  ret {| content := [content]; isError := None; errorCode := None |}.

(** The [switch] inside the [try] block of the CallTool handler. *)
Definition dispatch (params : CallToolParams) : Async ToolResponse :=
  if String.eqb (name params) "translate_text" then
    callTranslateText (arguments params)
  else if String.eqb (name params) "list_languages" then
    callListLanguages (arguments params)
  else
    throw (ThrownMcpError
             (new_McpError MethodNotFound
                           ("Tool '" ++ name params ++ "' not found.")
                           None)).

(** The CallTool request handler: the [switch] under [try], and
    [handleToolError] in the [catch]. *)
Definition callTool (params : CallToolParams) : Async ToolResponse :=
  try_catch (dispatch params) (fun error => settle (handleToolError error)).

(** ** The request shapes in the words of the specification *)

(** The field [k] of an argument payload; a payload that is not an object
    has no fields. *)
Definition field (args : option JSON) (k : string) : option JSON :=
  match args with
  | Some (JObj props) => assoc k props
  | _ => None
  end.

(** A valid TranslateRequest: [text] is a non-empty sequence of strings,
    [target_lang] a string, [source_lang] a string when present. *)
Definition valid_TranslateRequest (args : option JSON) (t : list string)
           (tl : string) (sl : option string) : Prop :=
  (exists props, args = Some (JObj props)) /\
  field args "text" = Some (JArr (map JStr t)) /\ t <> [] /\
  field args "target_lang" = Some (JStr tl) /\
  field args "source_lang" = option_map JStr sl.

Definition is_JStr (v : JSON) : bool :=
  match v with JStr _ => true | _ => false end.

(** The ways a payload fails the TranslateRequest shape: [text] missing,
    not a sequence of strings, or empty; [target_lang] missing or not a
    string. *)
Definition text_missing (args : option JSON) : bool :=
  match field args "text" with None => true | Some _ => false end.

Definition text_not_strings (args : option JSON) : bool :=
  match field args "text" with
  | Some (JArr items) => negb (forallb is_JStr items)
  | Some _ => true
  | None => false
  end.

Definition text_empty (args : option JSON) : bool :=
  match field args "text" with Some (JArr []) => true | _ => false end.

Definition target_lang_missing (args : option JSON) : bool :=
  match field args "target_lang" with None => true | Some _ => false end.

Definition target_lang_not_string (args : option JSON) : bool :=
  match field args "target_lang" with
  | Some v => negb (is_JStr v)
  | None => false
  end.

Definition fails_TranslateRequest (args : option JSON) : bool :=
  text_missing args || text_not_strings args || text_empty args
  || target_lang_missing args || target_lang_not_string args.

(** [arguments.type] is acceptable: absent, ["source"] or ["target"]. *)
Definition type_acceptable (args : option JSON) : Prop :=
  field args "type" = None \/ field args "type" = Some (JStr "source")
  \/ field args "type" = Some (JStr "target").

Definition accepted {A} (r : ZodResult A) : bool :=
  match r with ZodOk _ => true | ZodFail _ => false end.

(** The value that [data?.message || axiosError.message] picks for an
    upstream body: the [message] of the body when it is truthy, the
    transport-level message when the body has no [message] or a falsy one
    ([null], [false], [0], the empty string). *)
Definition picked_message (e : AxiosError.t) (body : JSON) : JSON :=
  match get_prop body "message" with
  | Some m => if truthy (Some m) then m else JStr (AxiosError.message e)
  | None => JStr (AxiosError.message e)
  end.


(** The values [truthy] turns down. *)
Definition empty_value (v : option JSON) : Prop :=
  v = None \/ v = Some JNull \/ v = Some (JBool false) \/ v = Some (JNum 0)
  \/ v = Some (JStr EmptyString).

(** ** Sample inputs *)

(** The example of the specification: two sentences to translate to
    German, and an upstream that answers with their translations. *)
Definition sample_args : JSON :=
  JObj [("text", JArr [JStr "Hello world"; JStr "How are you?"]);
        ("target_lang", JStr "DE")].

Definition sample_args_from (source : string) : JSON :=
  JObj [("text", JArr [JStr "Hello world"; JStr "How are you?"]);
        ("target_lang", JStr "DE");
        ("source_lang", JStr source)].

Definition translation (language translated : string) : JSON :=
  JObj [("detected_source_language", JStr language); ("text", JStr translated)].

Definition sample_translations : list JSON :=
  [translation "EN" "Hallo Welt"; translation "EN" "Wie geht es dir?"].

Definition answering (status : Z) (body : JSON) : Upstream :=
  fun _ => Fulfilled (AxiosResponse.make status body).

Definition sample_upstream : Upstream :=
  answering 200 (JObj [("translations", JArr sample_translations)]).

(** An upstream that answers with one translation whatever was asked. *)
Definition short_upstream : Upstream :=
  answering 200 (JObj [("translations", JArr [translation "EN" "Hallo Welt"])]).

(** A language listing as the upstream sends it. *)
Definition sample_languages : JSON :=
  JArr [JObj [("language", JStr "DE"); ("name", JStr "German");
              ("supports_formality", JBool true)];
        JObj [("language", JStr "EN-GB"); ("name", JStr "English (British)");
              ("supports_formality", JBool false)]].

(** The error axios raises on an HTTP failure, and an upstream whose calls
    all fail that way. *)
Definition http_failure (status : Z) (body : JSON) : AxiosError.t :=
  AxiosError.make ("Request failed with status code " ++ string_of_Z status)
                  (Some (AxiosResponse.make status body)).

Definition failing (status : Z) (body : JSON) : Upstream :=
  fun _ => Rejected (ThrownAxiosError (http_failure status body)).

(** An upstream error body whose [message] is an object with a property
    named [toString]. *)
Definition unprintable_body : JSON :=
  JObj [("message", JObj [("toString", JNum 1)])].

(** An upstream that cannot be reached. *)
Definition network_failure : AxiosError.t :=
  AxiosError.make "Network Error" None.

Definition unreachable : Upstream :=
  fun _ => Rejected (ThrownAxiosError network_failure).

(** ** Shapes used to state what goes out and what comes back *)

(** The elements of an array that are not strings, each with its index,
    counting from [i]. *)
Fixpoint bad_elements (i : nat) (items : list JSON) : list (nat * JSON) :=
  match items with
  | [] => []
  | JStr _ :: rest => bad_elements (S i) rest
  | x :: rest => (i, x) :: bad_elements (S i) rest
  end.

(** A request the upstream API documents: a translation of a non-empty
    list of strings into a target language, with a non-empty source
    language or none; or a language listing, unfiltered or filtered by
    ["source"] or ["target"]. *)
Definition documented_request (r : HttpRequest) : Prop :=
  match r with
  | POST url body =>
      url = "/v2/translate" /\
      exists t tl,
        t <> [] /\
        (body = JObj [("text", JArr (map JStr t)); ("target_lang", JStr tl)] \/
         exists s, s <> EmptyString /\
                   body = JObj [("text", JArr (map JStr t));
                                ("target_lang", JStr tl);
                                ("source_lang", JStr s)])
  | GET url params =>
      url = "/v2/languages" /\
      (params = [] \/ params = [("type", JStr "source")]
       \/ params = [("type", JStr "target")])
  end.

(** The body of the POST for validated arguments: [source_lang] goes in
    when it is a non-empty string. *)
Definition translate_body (v : TranslateTextInput) : JSON :=
  JObj ([("text", JArr (map JStr (text v)));
         ("target_lang", JStr (target_lang v))]
          ++ match source_lang v with
             | Some s => if is_empty s then [] else [("source_lang", JStr s)]
             | None => []
             end)%list.

(** The query parameters of the GET for an argument payload. *)
Definition languages_params (args : option JSON) : list (string * JSON) :=
  match field args "type" with
  | Some t => [("type", t)]
  | None => []
  end.

(** The two forms of a tool response: an error with its code and one plain
    text block, or a result with one JSON text block. *)
Definition error_envelope (r : ToolResponse) : Prop :=
  exists txt code,
    r = {| content := [TextContent.make "text" (Some txt) None];
           isError := Some true;
           errorCode := Some code |}.

Definition result_envelope (r : ToolResponse) : Prop :=
  exists txt,
    r = {| content := [TextContent.make "text" txt (Some "application/json")];
           isError := None;
           errorCode := None |}.

(** The payload is a JSON object. *)
Definition is_object (args : option JSON) : bool :=
  match args with Some (JObj _) => true | _ => false end.

(** The upstream never rejects with a protocol-level error of its own. *)
Definition no_protocol_error (up : Upstream) : Prop :=
  forall r e, up r <> Rejected (ThrownMcpError e).

(** ** Facts about strings *)

Lemma append_nil_r (s : string) : s ++ EmptyString = s.
Proof.
  induction s as [|c s IH]; simpl; [reflexivity | now rewrite IH].
Qed.

Lemma append_assoc (a b c : string) : (a ++ b) ++ c = a ++ (b ++ c).
Proof.
  induction a as [|x a IH]; simpl; [reflexivity | now rewrite IH].
Qed.

(** ** Properties of the schemas *)

Lemma z_elements_strings (path : list PathSeg) (items : list JSON) :
  forall i l,
    z_elements z_string path i items = ZodOk l <-> items = map JStr l.
Proof.
  induction items as [|x rest IH]; intros i l; simpl.
  - split; intros H.
    + injection H as <-. reflexivity.
    + destruct l; [reflexivity | discriminate].
  - destruct x; simpl;
      try (split; intros H; [discriminate | destruct l; discriminate]).
    destruct (z_elements z_string path (S i) rest) as [l'|errs] eqn:E.
    + split; intros H.
      * injection H as <-. simpl. f_equal. apply (IH (S i)). exact E.
      * destruct l as [|s' l]; [discriminate|]. simpl in H.
        injection H as -> ->. f_equal. f_equal.
        assert (E' : z_elements z_string path (S i) (map JStr l) = ZodOk l)
          by (apply IH; reflexivity).
        congruence.
    + split; intros H; [discriminate|].
      destruct l as [|s' l]; [discriminate|]. simpl in H.
      injection H as -> ->.
      assert (E' : z_elements z_string path (S i) (map JStr l) = ZodOk l)
        by (apply IH; reflexivity).
      congruence.
Qed.

Lemma z_string_accepts (path : list PathSeg) (input : option JSON) (s : string) :
  z_string path input = ZodOk s <-> input = Some (JStr s).
Proof.
  destruct input as [[]|]; simpl; split; intros H;
    try discriminate; congruence.
Qed.

Lemma z_optional_string_accepts (path : list PathSeg) (input : option JSON)
      (o : option string) :
  z_optional z_string path input = ZodOk o <-> input = option_map JStr o.
Proof.
  destruct input as [[]|]; destruct o; simpl; split; intros H;
    try discriminate; congruence.
Qed.

Lemma z_array_min_strings_accepts (message : string) (path : list PathSeg)
      (input : option JSON) (l : list string) :
  z_array_min z_string 1 message path input = ZodOk l
  <-> input = Some (JArr (map JStr l)) /\ l <> [].
Proof.
  unfold z_array_min.
  destruct input as [[| | | |items|]|];
    try (split; [discriminate | intros [H _]; discriminate]).
  destruct items as [|x rest].
  - simpl. split; [discriminate|].
    intros [H Hl]. destruct l; [contradiction | discriminate].
  - change (List.length (x :: rest) <? 1)%nat with false. cbv iota.
    destruct (z_elements z_string path 0 (x :: rest)) as [l'|errs] eqn:E.
    + apply z_elements_strings in E. split.
      * intros H. injection H as <-. split; [congruence|].
        destruct l'; [discriminate | congruence].
      * intros [H _]. injection H as H. rewrite E in H.
        f_equal. clear -H. revert l H.
        induction l' as [|a l' IH]; intros [|b l] H; try discriminate; auto.
        simpl in H. injection H as -> H. f_equal. auto.
    + split; [discriminate|]. intros [H _]. injection H as H.
      assert (E' : z_elements z_string path 0 (x :: rest) = ZodOk l)
        by (apply z_elements_strings; exact H).
      congruence.
Qed.

Lemma TranslateTextInputSchema_accepts (args : option JSON)
      (v : TranslateTextInput) :
  TranslateTextInputSchema [] args = ZodOk v
  <-> valid_TranslateRequest args (text v) (target_lang v) (source_lang v).
Proof.
  unfold valid_TranslateRequest, TranslateTextInputSchema.
  destruct args as [[| | | | |props]|];
    try (split; [discriminate | intros [[p H] _]; discriminate]).
  simpl field. simpl app.
  pose proof (z_array_min_strings_accepts "The 'text' array cannot be empty."
                [Key "text"] (assoc "text" props)) as Ht.
  pose proof (z_string_accepts [Key "target_lang"] (assoc "target_lang" props))
    as Hl.
  pose proof (z_optional_string_accepts [Key "source_lang"]
                (assoc "source_lang" props)) as Hs.
  destruct (z_array_min z_string 1 _ _ _) as [t|e1].
  - destruct (z_string _ _) as [tl|e2].
    + destruct (z_optional z_string _ _) as [sl|e3].
      * split.
        -- intros H. injection H as <-. simpl.
           destruct (proj1 (Ht t) eq_refl) as [H1 H2].
           repeat split; eauto.
           ++ apply Hl. reflexivity.
           ++ apply Hs. reflexivity.
        -- intros (_ & H1 & H2 & H3 & H4).
           apply (fun H => proj2 (Ht (text v)) (conj H H2)) in H1.
           apply Hl in H3. apply Hs in H4. destruct v; simpl in *. congruence.
      * split; [discriminate|]. intros (_ & _ & _ & _ & H4).
        apply Hs in H4. discriminate.
    + split; [discriminate|]. intros (_ & _ & _ & H3 & _).
      apply Hl in H3. discriminate.
  - split; [discriminate|]. intros (_ & H1 & H2 & _).
    apply (fun H => proj2 (Ht (text v)) (conj H H2)) in H1. discriminate.
Qed.

Lemma fails_TranslateRequest_rejected (args : option JSON) :
  fails_TranslateRequest args = true ->
  exists errors, TranslateTextInputSchema [] args = ZodFail errors.
Proof.
  intros Hf.
  destruct (TranslateTextInputSchema [] args) as [v|errors] eqn:E;
    [|eauto].
  exfalso. apply TranslateTextInputSchema_accepts in E.
  destruct E as (_ & H1 & H2 & H3 & _).
  unfold fails_TranslateRequest, text_missing, text_not_strings, text_empty,
    target_lang_missing, target_lang_not_string in Hf.
  rewrite H1, H3 in Hf. simpl in Hf.
  assert (Hall : forallb is_JStr (map JStr (text v)) = true).
  { clear. induction (text v); simpl; auto. }
  rewrite Hall in Hf. simpl in Hf.
  destruct (text v); [contradiction | discriminate].
Qed.

Lemma ListLanguagesInputSchema_accepts (args : option JSON) :
  accepted (ListLanguagesInputSchema [] args) = true
  <-> (exists props, args = Some (JObj props)) /\ type_acceptable args.
Proof.
  unfold type_acceptable, ListLanguagesInputSchema.
  destruct args as [[| | | | |props]|]; simpl;
    try (split; [discriminate | intros [[p H] _]; discriminate]).
  destruct (assoc "type" props) as [[| | |s| |]|] eqn:E; simpl;
    try (split; [discriminate | intros [_ [H|[H|H]]]; discriminate]).
  - destruct (String.eqb_spec s "source") as [->|Hs]; simpl.
    + split; eauto.
    + destruct (String.eqb_spec s "target") as [->|Ht]; simpl.
      * split; eauto.
      * split; [discriminate|]. intros [_ [H|[H|H]]]; congruence.
  - split; eauto.
Qed.

Lemma ListLanguagesInputSchema_type (args : option JSON)
      (v : ListLanguagesInput) :
  ListLanguagesInputSchema [] args = ZodOk v ->
  field args "type" = option_map JStr (type v).
Proof.
  unfold ListLanguagesInputSchema.
  destruct args as [[| | | | |props]|]; simpl; try discriminate.
  destruct (assoc "type" props) as [[| | |s| |]|]; cbn -[mem_string];
    try discriminate.
  - destruct (mem_string s ["source"; "target"]); simpl; [|discriminate].
    intros H. injection H as <-. reflexivity.
  - intros H. injection H as <-. reflexivity.
Qed.

Lemma ListLanguagesInputSchema_enum (args : option JSON)
      (v : ListLanguagesInput) (t : string) :
  ListLanguagesInputSchema [] args = ZodOk v -> type v = Some t ->
  t = "source" \/ t = "target".
Proof.
  unfold ListLanguagesInputSchema.
  destruct args as [[| | | | |props]|]; simpl; try discriminate.
  destruct (assoc "type" props) as [[| | |s| |]|]; simpl; try discriminate.
  - destruct (String.eqb_spec s "source") as [->|Hs]; simpl.
    + intros H. injection H as <-. simpl. intros H. injection H as <-. auto.
    + destruct (String.eqb_spec s "target") as [->|Ht]; simpl; [|discriminate].
      intros H. injection H as <-. simpl. intros H. injection H as <-. auto.
  - intros H. injection H as <-. discriminate.
Qed.

(** Every issue of an element list sits at an index below the given path. *)
Lemma z_elements_issue_paths (path : list PathSeg) (items : list JSON) :
  forall i,
    Forall (fun issue => exists j, issue_path issue = (path ++ [Index j])%list)
           (issues_of (z_elements z_string path i items)).
Proof.
  induction items as [|x rest IH]; intros i; simpl; [constructor|].
  specialize (IH (S i)).
  assert (Hx : forall expected received,
             Forall (fun issue => exists j, issue_path issue = (path ++ [Index j])%list)
                    (invalid_type expected received (path ++ [Index i])%list
                       :: issues_of (z_elements z_string path (S i) rest))).
  { intros. constructor; [exists i; reflexivity | exact IH]. }
  destruct x; simpl; try apply Hx.
  destruct (z_elements z_string path (S i) rest) as [l|errs]; simpl in *;
    [constructor | exact IH].
Qed.

Lemma z_string_issue_path (path : list PathSeg) (input : option JSON) :
  Forall (fun issue => issue_path issue = path) (issues_of (z_string path input)).
Proof.
  destruct input as [[]|]; simpl; repeat constructor.
Qed.

Lemma z_optional_string_issue_path (path : list PathSeg) (input : option JSON) :
  Forall (fun issue => issue_path issue = path)
         (issues_of (z_optional z_string path input)).
Proof.
  destruct input as [[]|]; simpl; repeat constructor.
Qed.

Lemma z_array_min_issue_paths (minimum : nat) (message : string)
      (path : list PathSeg) (input : option JSON) :
  Forall (fun issue => exists rest, issue_path issue = (path ++ rest)%list)
         (issues_of (z_array_min z_string minimum message path input)).
Proof.
  assert (Hroot : forall issue, issue_path issue = path ->
                    exists rest, issue_path issue = (path ++ rest)%list).
  { intros issue H. exists []. rewrite List.app_nil_r. exact H. }
  unfold z_array_min.
  destruct input as [[| | | |items|]|]; simpl;
    try (constructor; [apply Hroot; reflexivity | constructor]).
  assert (He : Forall (fun issue => exists rest, issue_path issue = (path ++ rest)%list)
                      (issues_of (z_elements z_string path 0 items))).
  { eapply Forall_impl; [|apply z_elements_issue_paths].
    intros a [j Hj]. eauto. }
  destruct (List.length items <? minimum)%nat;
    destruct (z_elements z_string path 0 items); simpl in *;
    repeat constructor; auto.
  all: apply Hroot; reflexivity.
Qed.

Lemma ListLanguagesInputSchema_issue_paths (props : list (string * JSON))
      (errors : list ZodIssue) :
  ListLanguagesInputSchema [] (Some (JObj props)) = ZodFail errors ->
  Forall (fun issue => issue_path issue = [Key "type"]) errors.
Proof.
  unfold ListLanguagesInputSchema, z_optional, z_enum. simpl app.
  destruct (assoc "type" props) as [[| | |s| |]|]; try discriminate;
    try (intros H; injection H as <-; repeat constructor).
  destruct (mem_string s ["source"; "target"]); [discriminate|].
  intros H; injection H as <-; repeat constructor.
Qed.

(** Every issue raised on an object payload names the field it is about. *)
Lemma TranslateTextInputSchema_issue_paths (props : list (string * JSON))
      (errors : list ZodIssue) :
  TranslateTextInputSchema [] (Some (JObj props)) = ZodFail errors ->
  Forall (fun issue =>
            exists k rest, issue_path issue = Key k :: rest /\
                           In k ["text"; "target_lang"; "source_lang"])
         errors.
Proof.
  unfold TranslateTextInputSchema. cbv zeta. rewrite !List.app_nil_l.
  pose proof (z_array_min_issue_paths 1 "The 'text' array cannot be empty."
                [Key "text"] (assoc "text" props)) as H1.
  pose proof (z_string_issue_path [Key "target_lang"]
                (assoc "target_lang" props)) as H2.
  pose proof (z_optional_string_issue_path [Key "source_lang"]
                (assoc "source_lang" props)) as H3.
  assert (Hall : Forall (fun issue => exists k rest, issue_path issue = Key k :: rest /\
                         In k ["text"; "target_lang"; "source_lang"])
                   (issues_of (z_array_min z_string 1
                                 "The 'text' array cannot be empty."
                                 [Key "text"] (assoc "text" props))
                      ++ issues_of (z_string [Key "target_lang"]
                                      (assoc "target_lang" props))
                      ++ issues_of (z_optional z_string [Key "source_lang"]
                                      (assoc "source_lang" props)))).
  { repeat (apply Forall_app; split);
      (eapply Forall_impl; [|eassumption]); cbv beta.
    - intros a [rest Ha]. rewrite Ha. do 2 eexists.
      split; [reflexivity | simpl; auto].
    - intros a Ha. rewrite Ha. do 2 eexists.
      split; [reflexivity | simpl; auto].
    - intros a Ha. rewrite Ha. do 2 eexists.
      split; [reflexivity | simpl; auto]. }
  destruct (z_array_min z_string 1 "The 'text' array cannot be empty."
              [Key "text"] (assoc "text" props));
    destruct (z_string [Key "target_lang"] (assoc "target_lang" props));
    destruct (z_optional z_string [Key "source_lang"]
                (assoc "source_lang" props));
    intros H; try discriminate; injection H as <-; exact Hall.
Qed.

(** ** Properties of the handlers *)

(** What [callTranslateText] does once the arguments passed the schema. *)
Lemma callTranslateText_validated (args : option JSON)
      (v : TranslateTextInput) (up : Upstream) :
  TranslateTextInputSchema [] args = ZodOk v ->
  snd (run (callTranslateText args) up)
  = [POST "/v2/translate"
       (JObj ([("text", JArr (map JStr (text v)));
               ("target_lang", JStr (target_lang v))]
                ++ match source_lang v with
                   | Some s => if is_empty s then [] else [("source_lang", JStr s)]
                   | None => []
                   end)%list)].
Proof.
  intros Hv. unfold run, callTranslateText, bind, parse. rewrite Hv.
  unfold ret at 1. unfold request.
  assert (Hs : match source_lang v with
               | Some s => if truthy (Some (JStr s))
                           then [("source_lang", JStr s)] else []
               | None => []
               end
               = match source_lang v with
                 | Some s => if is_empty s then [] else [("source_lang", JStr s)]
                 | None => []
                 end).
  { destruct (source_lang v) as [[|c s]|]; reflexivity. }
  rewrite Hs.
  destruct (up _) as [response|reason]; [|reflexivity].
  unfold member. destruct (AxiosResponse.data response); reflexivity.
Qed.

(** A payload the schema refuses: nothing goes upstream, a [ZodError] is
    thrown. *)
Lemma callTranslateText_refused (args : option JSON)
      (errors : list ZodIssue) (up : Upstream) :
  TranslateTextInputSchema [] args = ZodFail errors ->
  run (callTranslateText args) up = (Threw (ThrownZodError errors), []).
Proof.
  intros Hv. unfold run, callTranslateText, bind, parse. rewrite Hv.
  reflexivity.
Qed.

Lemma callListLanguages_refused (args : option JSON)
      (errors : list ZodIssue) (up : Upstream) :
  ListLanguagesInputSchema [] args = ZodFail errors ->
  run (callListLanguages args) up = (Threw (ThrownZodError errors), []).
Proof.
  intros Hv. unfold run, callListLanguages, bind, parse. rewrite Hv.
  reflexivity.
Qed.

(** The CallTool handler returns what [dispatch] returned, or the
    normalized form of what it threw; the log is that of [dispatch]. *)
Lemma callTool_run (params : CallToolParams) (up : Upstream) :
  run (callTool params) up
  = match run (dispatch params) up with
    | (Returned response, log) => (Returned response, log)
    | (Threw error, log) => (handleToolError error, log)
    end.
Proof.
  unfold run, callTool, try_catch, settle.
  destruct (dispatch params up []) as [[response|error] log]; reflexivity.
Qed.

Lemma dispatch_translate_text (args : option JSON) :
  dispatch {| name := "translate_text"; arguments := args |}
  = callTranslateText args.
Proof. reflexivity. Qed.

Lemma dispatch_list_languages (args : option JSON) :
  dispatch {| name := "list_languages"; arguments := args |}
  = callListLanguages args.
Proof. reflexivity. Qed.

(** C1 (as amended): for every valid TranslateRequest the translate handler
    issues exactly one upstream POST; its body holds the given [text] and
    [target_lang], and holds [source_lang] exactly when the caller provided
    a non-empty string for it (an empty string is dropped like an omitted
    one). *)
Theorem translate_issues_one_post (args : option JSON) (t : list string)
        (tl : string) (sl : option string) (up : Upstream)
        (Hvalid : valid_TranslateRequest args t tl sl) :
  exists body,
    snd (run (callTranslateText args) up) = [POST "/v2/translate" body] /\
    get_prop body "text" = Some (JArr (map JStr t)) /\
    get_prop body "target_lang" = Some (JStr tl) /\
    get_prop body "source_lang"
    = match sl with
      | Some s => if is_empty s then None else Some (JStr s)
      | None => None
      end /\
    (get_prop body "source_lang" <> None
     <-> exists s, field args "source_lang" = Some (JStr s) /\ s <> EmptyString).
Proof.
  assert (Hv : TranslateTextInputSchema [] args
               = ZodOk {| text := t; target_lang := tl; source_lang := sl |})
    by (apply TranslateTextInputSchema_accepts; exact Hvalid).
  destruct Hvalid as (_ & _ & _ & _ & Hsl).
  eexists. split; [apply (callTranslateText_validated _ _ up Hv)|].
  simpl text. simpl target_lang. simpl source_lang.
  repeat split; try reflexivity.
  - destruct sl as [[|c s]|]; reflexivity.
  - rewrite Hsl. destruct sl as [[|c s]|]; simpl; intros H;
      try congruence. eexists; split; [reflexivity | discriminate].
  - rewrite Hsl. intros (s & Hs & Hne).
    destruct sl as [[|c s']|]; simpl in *; congruence.
Qed.

(** C2: a payload that fails the TranslateRequest shape ([text] missing,
    not a sequence of strings, or empty; [target_lang] missing or not a
    string) gets an InvalidParams error response, and no upstream call is
    issued. *)
Theorem invalid_translate_arguments_rejected (args : option JSON)
        (up : Upstream) (Hfails : fails_TranslateRequest args = true) :
  exists response,
    run (callTool {| name := "translate_text"; arguments := args |}) up
    = (Returned response, []) /\
    isError response = Some true /\
    errorCode response = Some InvalidParams.
Proof.
  destruct (fails_TranslateRequest_rejected args Hfails) as [errors He].
  rewrite callTool_run, dispatch_translate_text.
  rewrite (callTranslateText_refused _ _ up He).
  eexists. split; [reflexivity|]. split; reflexivity.
Qed.

(** C4: a tool name other than [translate_text] and [list_languages] gets
    a MethodNotFound error response: the protocol-level error goes through
    the normalizer unchanged, no upstream call is issued, and the handler
    returns instead of throwing. *)
Theorem unknown_tool_method_not_found (params : CallToolParams)
        (up : Upstream)
        (Hnot_translate : name params <> "translate_text")
        (Hnot_list : name params <> "list_languages") :
  let e := new_McpError MethodNotFound
                        ("Tool '" ++ name params ++ "' not found.") None in
  mcpError_of (ThrownMcpError e) = Returned e /\
  run (callTool params) up
  = (Returned
       {| content :=
            [TextContent.make "text"
               (Some ("Error: " ++ McpError_message MethodNotFound
                                     ("Tool '" ++ name params ++ "' not found.")))
               None];
          isError := Some true;
          errorCode := Some MethodNotFound |},
     []).
Proof.
  intros e. split; [reflexivity|].
  rewrite callTool_run. unfold dispatch.
  apply String.eqb_neq in Hnot_translate, Hnot_list.
  rewrite Hnot_translate, Hnot_list.
  unfold run, throw, handleToolError, error_response. simpl.
  rewrite append_nil_r. reflexivity.
Qed.

(** The values that [truthy] turns down are the empty ones. *)
Lemma truthy_false (v : option JSON) : truthy v = false <-> empty_value v.
Proof.
  unfold empty_value. split.
  - destruct v as [[|[|]|n|s|items|props]|]; simpl; intros H;
      try discriminate; auto.
    + apply negb_false_iff, Z.eqb_eq in H. subst. auto.
    + apply negb_false_iff, String.eqb_eq in H. subst. auto 6.
  - intros [->|[->|[->|[->| ->]]]]; reflexivity.
Qed.

Lemma truthy_true (v : option JSON) : truthy v = true <-> ~ empty_value v.
Proof.
  rewrite <- truthy_false. destruct (truthy v); split; congruence.
Qed.

(** A value that cannot be converted to a string is an array or an object,
    so it is truthy. *)
Lemma ToString_None_truthy (v : JSON) : ToString v = None -> truthy (Some v) = true.
Proof.
  destruct v as [|[|]|n|s|items|props]; simpl; intros H;
    try discriminate; reflexivity.
Qed.

(** What [handleToolError] makes of an upstream failure with a response:
    the value picked for the message decides between an error annotated
    with it and a [TypeError]. *)
Lemma mcpError_of_http_failure (e : AxiosError.t) (status : Z) (body : JSON) :
  AxiosError.response e = Some (AxiosResponse.make status body) ->
  mcpError_of (ThrownAxiosError e)
  = match ToString (picked_message e body) with
    | Some text =>
        Returned (new_McpError (errorCode_for (Some status))
                    ("DeepL API Error (" ++ string_of_Z status ++ "): " ++ text)
                    (Some body))
    | None => Threw (ThrownError cannot_convert)
    end.
Proof.
  intros Hresponse. unfold mcpError_of, picked_message. rewrite Hresponse.
  simpl option_map. simpl AxiosResponse.status. simpl AxiosResponse.data.
  unfold get_prop_opt.
  destruct (get_prop body "message") as [m|]; [|reflexivity].
  destruct (truthy (Some m)); reflexivity.
Qed.

(** C5: what is raised during the dispatch of a tool call is handed to
    [handleToolError], and the handler answers with what that returns, a
    response with [isError = true], or throws what that throws: a
    [TypeError], raised exactly when the error to describe is an upstream
    failure whose body has a [message] that cannot be converted to a
    string, or a thrown value that cannot.  A valid translation request
    answered by HTTP 400 with the body [{"message": {"toString": 1}}] is
    such a call: the handler throws after its one POST. *)
Theorem dispatcher_boundary (params : CallToolParams) (up : Upstream) :
  (forall error log,
      run (dispatch params) up = (Threw error, log) ->
      run (callTool params) up = (handleToolError error, log)) /\
  (forall error response,
      handleToolError error = Returned response ->
      isError response = Some true) /\
  (forall error fault,
      handleToolError error = Threw fault
      <-> fault = ThrownError cannot_convert /\
          ((exists e r m,
               error = ThrownAxiosError e /\ AxiosError.response e = Some r /\
               get_prop (AxiosResponse.data r) "message" = Some m /\
               ToString m = None)
           \/ exists v, error = ThrownValue (Some v) /\ ToString v = None)) /\
  run (callTool {| name := "translate_text"; arguments := Some sample_args |})
      (failing 400 unprintable_body)
  = (Threw (ThrownError cannot_convert), [POST "/v2/translate" sample_args]).
Proof.
  split; [|split; [|split]].
  - intros error log H. rewrite callTool_run, H. reflexivity.
  - intros error response. unfold handleToolError.
    destruct (mcpError_of error) as [m|fault]; [|discriminate].
    intros H. injection H as <-. reflexivity.
  - intros error fault. unfold handleToolError. split.
    + destruct error as [e|errors|e|message|[v|]]; try discriminate.
      * destruct e as [message [[status body]|]].
        -- rewrite (mcpError_of_http_failure
                      (AxiosError.make message
                         (Some (AxiosResponse.make status body)))
                      status body eq_refl).
           unfold picked_message.
           destruct (get_prop body "message") as [m|] eqn:Em;
             [|discriminate].
           destruct (truthy (Some m)) eqn:Et.
           ++ destruct (ToString m) eqn:Es; [discriminate|].
              intros H. injection H as <-. split; [reflexivity|].
              left. exists (AxiosError.make message (Some (AxiosResponse.make status body))),
                           (AxiosResponse.make status body), m. auto.
           ++ discriminate.
        -- discriminate.
      * simpl. destruct (ToString v) eqn:Es; [discriminate|].
        intros H. injection H as <-. split; [reflexivity|].
        right. exists v. auto.
    + intros [-> [(e & [status body] & m & -> & Hr & Hm & Hs)|(v & -> & Hs)]].
      * rewrite (mcpError_of_http_failure _ status body Hr).
        unfold picked_message. simpl in Hm. rewrite Hm.
        rewrite (ToString_None_truthy _ Hs), Hs. reflexivity.
      * simpl. rewrite Hs. reflexivity.
  - reflexivity.
Qed.



(** C10: an upstream call that fails with no HTTP response at all (so no
    status) is classified as InternalError, and its message is the
    transport-level error message. *)
Theorem network_failure_internal_error (e : AxiosError.t)
        (Hno_response : AxiosError.response e = None) :
  mcpError_of (ThrownAxiosError e)
  = Returned
      (new_McpError InternalError
         ("DeepL API Error (undefined): " ++ AxiosError.message e) None) /\
  handleToolError (ThrownAxiosError e)
  = Returned
      {| content :=
           [TextContent.make "text"
              (Some ("Error: "
                       ++ McpError_message InternalError
                            ("DeepL API Error (undefined): "
                               ++ AxiosError.message e)))
              None];
         isError := Some true;
         errorCode := Some InternalError |}.
Proof.
  unfold handleToolError, mcpError_of. rewrite Hno_response. simpl.
  unfold error_response. simpl. rewrite append_nil_r. split; reflexivity.
Qed.

(** C9 (as amended): the response built for a normalized error has one
    plain text block.  Its text is [Error: <message>], followed by a line
    [Details: <json>] exactly when the error carries details that are not
    an empty value: an array or an object (even an empty one) always adds
    the line, and so does a non-empty string, a non-zero number or [true];
    absent details add none, and neither do details that are [null],
    [false], [0] or the empty string.  The details shown are a JSON
    document. *)
Theorem error_text_form (error : Thrown) (response : ToolResponse)
        (Hnormalized : handleToolError error = Returned response) :
  exists m txt,
    mcpError_of error = Returned m /\
    response = error_response m /\
    content response = [TextContent.make "text" (Some txt) None] /\
    (forall d,
        McpError.data m = Some d -> well_formed d -> ~ empty_value (Some d) ->
        txt = "Error: " ++ McpError.message m ++ nl ++ "Details: "
                ++ SerializeJSON EmptyString EmptyString d) /\
    (empty_value (McpError.data m) -> txt = "Error: " ++ McpError.message m) /\
    (forall items, McpError.data m = Some (JArr items) ->
                   ~ empty_value (McpError.data m)) /\
    (forall props, McpError.data m = Some (JObj props) ->
                   ~ empty_value (McpError.data m)).
Proof.
  unfold handleToolError in Hnormalized.
  destruct (mcpError_of error) as [m|fault]; [|discriminate].
  injection Hnormalized as <-.
  exists m. eexists. split; [reflexivity|]. split; [reflexivity|].
  split; [reflexivity|]. repeat split.
  - intros d Hd _ Hne. rewrite Hd. apply truthy_true in Hne. rewrite Hne.
    reflexivity.
  - intros Hempty. apply truthy_false in Hempty. rewrite Hempty.
    rewrite append_nil_r. reflexivity.
  - intros items Hd. rewrite Hd. apply truthy_true. reflexivity.
  - intros props Hd. rewrite Hd. apply truthy_true. reflexivity.
Qed.

(** The details of a validation failure show every issue: one object per
    issue, in order, with its code, the path of the field at fault and its
    message. *)
Lemma errors_json_issues (errors : list ZodIssue) :
  exists objects,
    errors_json errors = JArr objects /\
    Forall2 (fun issue object =>
               get_prop object "code" = Some (JStr (issue_code issue)) /\
               get_prop object "path" = Some (path_json (issue_path issue)) /\
               get_prop object "message" = Some (JStr (issue_message issue)))
            errors objects.
Proof.
  exists (map issue_json errors). split; [reflexivity|].
  induction errors as [|issue errors IH]; simpl; constructor; [|exact IH].
  destruct issue; repeat split; reflexivity.
Qed.

(** C8: a schema-validation failure of either tool's arguments is
    normalized to an InvalidParams error with the message
    [Input validation failed] and the list of validation issues as
    details: one object per issue, in the order Zod found them, each with
    its code, the path of the field at fault and its message (each issue of
    an object payload names its field).  The response shows them, and no
    upstream call is issued.  The text is spelled out for two calls: a
    translation of an empty [text] with no [target_lang], and a listing
    whose [type] is a number. *)
Theorem validation_failure_normalized (errors : list ZodIssue) :
  (exists details,
      mcpError_of (ThrownZodError errors)
      = Returned (new_McpError InvalidParams "Input validation failed"
                               (Some (JArr details))) /\
      Forall2 (fun issue object =>
                 get_prop object "code" = Some (JStr (issue_code issue)) /\
                 get_prop object "path" = Some (path_json (issue_path issue)) /\
                 get_prop object "message" = Some (JStr (issue_message issue)))
              errors details /\
      handleToolError (ThrownZodError errors)
      = Returned
          {| content :=
               [TextContent.make "text"
                  (Some ("Error: "
                           ++ McpError_message InvalidParams "Input validation failed"
                           ++ nl ++ "Details: "
                           ++ SerializeJSON EmptyString EmptyString (JArr details)))
                  None];
             isError := Some true;
             errorCode := Some InvalidParams |}) /\
  (forall args up,
      TranslateTextInputSchema [] args = ZodFail errors ->
      run (callTool {| name := "translate_text"; arguments := args |}) up
      = (handleToolError (ThrownZodError errors), [])) /\
  (forall args up,
      ListLanguagesInputSchema [] args = ZodFail errors ->
      run (callTool {| name := "list_languages"; arguments := args |}) up
      = (handleToolError (ThrownZodError errors), [])) /\
  (forall props,
      TranslateTextInputSchema [] (Some (JObj props)) = ZodFail errors ->
      Forall (fun issue =>
                exists k rest, issue_path issue = Key k :: rest /\
                               In k ["text"; "target_lang"; "source_lang"])
             errors) /\
  (forall props,
      ListLanguagesInputSchema [] (Some (JObj props)) = ZodFail errors ->
      Forall (fun issue => issue_path issue = [Key "type"]) errors) /\
  (forall up,
      run (callTool {| name := "translate_text";
                       arguments := Some (JObj [("text", JArr [])]) |}) up
      = (Returned
           {| content :=
                [TextContent.make "text"
                   (Some ("Error: "
                            ++ McpError_message InvalidParams "Input validation failed"
                            ++ nl ++ "Details: [{" ++ dquote ++ "code"
                               ++ dquote ++ ":" ++ dquote ++ "too_small"
                               ++ dquote ++ "," ++ dquote ++ "minimum"
                               ++ dquote ++ ":1," ++ dquote ++ "type"
                               ++ dquote ++ ":" ++ dquote ++ "array"
                               ++ dquote ++ "," ++ dquote ++ "inclusive"
                               ++ dquote ++ ":true," ++ dquote
                               ++ "exact" ++ dquote ++ ":false,"
                               ++ dquote ++ "message" ++ dquote ++ ":"
                               ++ dquote
                               ++ "The 'text' array cannot be empty."
                               ++ dquote ++ "," ++ dquote ++ "path"
                               ++ dquote ++ ":[" ++ dquote ++ "text"
                               ++ dquote ++ "]},{" ++ dquote ++ "code"
                               ++ dquote ++ ":" ++ dquote
                               ++ "invalid_type" ++ dquote ++ ","
                               ++ dquote ++ "expected" ++ dquote ++ ":"
                               ++ dquote ++ "string" ++ dquote ++ ","
                               ++ dquote ++ "received" ++ dquote ++ ":"
                               ++ dquote ++ "undefined" ++ dquote ++ ","
                               ++ dquote ++ "path" ++ dquote ++ ":["
                               ++ dquote ++ "target_lang" ++ dquote
                               ++ "]," ++ dquote ++ "message" ++ dquote
                               ++ ":" ++ dquote ++ "Required" ++ dquote
                               ++ "}]"))
                   None];
              isError := Some true;
              errorCode := Some InvalidParams |},
         [])) /\
  (forall up,
      run (callTool {| name := "list_languages";
                       arguments := Some (JObj [("type", JNum 5)]) |}) up
      = (Returned
           {| content :=
                [TextContent.make "text"
                   (Some ("Error: "
                            ++ McpError_message InvalidParams "Input validation failed"
                            ++ nl ++ "Details: [{" ++ dquote ++ "expected"
                               ++ dquote ++ ":" ++ dquote
                               ++ "'source' | 'target'" ++ dquote ++ ","
                               ++ dquote ++ "received" ++ dquote ++ ":"
                               ++ dquote ++ "number" ++ dquote ++ ","
                               ++ dquote ++ "code" ++ dquote ++ ":"
                               ++ dquote ++ "invalid_type" ++ dquote
                               ++ "," ++ dquote ++ "path" ++ dquote
                               ++ ":[" ++ dquote ++ "type" ++ dquote
                               ++ "]," ++ dquote ++ "message" ++ dquote
                               ++ ":" ++ dquote
                               ++ "Expected 'source' | 'target', received number"
                               ++ dquote ++ "}]"))
                   None];
              isError := Some true;
              errorCode := Some InvalidParams |},
         [])).
Proof.
  split; [|repeat split].
  - destruct (errors_json_issues errors) as (details & Hd & Hall).
    exists details. unfold handleToolError, mcpError_of. rewrite Hd.
    split; [reflexivity|]. split; [exact Hall|reflexivity].
  - intros args up H. rewrite callTool_run, dispatch_translate_text.
    now rewrite (callTranslateText_refused _ _ up H).
  - intros args up H. rewrite callTool_run, dispatch_list_languages.
    now rewrite (callListLanguages_refused _ _ up H).
  - intros props H. exact (TranslateTextInputSchema_issue_paths props errors H).
  - intros props H. exact (ListLanguagesInputSchema_issue_paths props errors H).
Qed.

(** C7: the list_languages validator accepts [arguments.type] only when it
    is absent or one of ["source"], ["target"] (and accepts every object
    payload of that kind); on acceptance one GET is issued, and it carries
    the [type] query parameter exactly when [type] was present in the
    arguments, with the same value. *)
Theorem list_languages_type_filter (args : option JSON) (up : Upstream) :
  (accepted (ListLanguagesInputSchema [] args) = true
   <-> (exists props, args = Some (JObj props)) /\ type_acceptable args) /\
  (accepted (ListLanguagesInputSchema [] args) = true ->
   snd (run (callListLanguages args) up)
   = [GET "/v2/languages"
          match field args "type" with
          | Some t => [("type", t)]
          | None => []
          end]) /\
  (accepted (ListLanguagesInputSchema [] args) = false ->
   snd (run (callListLanguages args) up) = []).
Proof.
  split; [apply ListLanguagesInputSchema_accepts|]. split.
  - destruct (ListLanguagesInputSchema [] args) as [v|errors] eqn:Ev;
      [intros _|discriminate].
    pose proof (ListLanguagesInputSchema_type _ _ Ev) as Ht.
    pose proof (fun t => ListLanguagesInputSchema_enum _ _ t Ev) as Hen.
    unfold run, callListLanguages, bind, parse. rewrite Ev.
    unfold ret at 1. unfold request. rewrite Ht.
    assert (Hp : match type v with
                 | Some t => if truthy (Some (JStr t)) then [("type", JStr t)] else []
                 | None => []
                 end
                 = match option_map JStr (type v) with
                   | Some t => [("type", t)]
                   | None => []
                   end).
    { destruct (type v) as [t|]; [|reflexivity].
      destruct (Hen t eq_refl) as [-> | ->]; reflexivity. }
    rewrite Hp. destruct (up _); reflexivity.
  - destruct (ListLanguagesInputSchema [] args) as [v|errors] eqn:Ev;
      [discriminate|intros _].
    now rewrite (callListLanguages_refused _ _ up Ev).
Qed.

End Server.

(** ** JSON.parse after JSON.stringify *)

(** Induction on a JSON value, with the hypothesis for every element of an
    array and every property value of an object. *)
Lemma JSON_induction (P : JSON -> Prop) :
  P JNull -> (forall b, P (JBool b)) -> (forall n, P (JNum n)) ->
  (forall s, P (JStr s)) ->
  (forall items, Forall P items -> P (JArr items)) ->
  (forall props, Forall (fun p => P (snd p)) props -> P (JObj props)) ->
  forall v, P v.
Proof.
  intros Hnull Hbool Hnum Hstr Harr Hobj.
  fix IH 1. intros [| b | n | s | items | props].
  - exact Hnull.
  - apply Hbool.
  - apply Hnum.
  - apply Hstr.
  - apply Harr. induction items as [|x rest IHl]; constructor.
    + apply IH.
    + exact IHl.
  - apply Hobj. induction props as [|[k x] rest IHl]; constructor.
    + apply IH.
    + exact IHl.
Qed.

Lemma skip_ws_blank (w s : string) :
  is_blank w = true -> skip_ws (w ++ s) = skip_ws s.
Proof.
  induction w as [|c w IH]; simpl; [reflexivity|].
  intros H. apply andb_true_iff in H as [Hc Hw]. rewrite Hc. auto.
Qed.

Lemma is_blank_app (a b : string) :
  is_blank a = true -> is_blank b = true -> is_blank (a ++ b) = true.
Proof.
  induction a as [|c a IH]; simpl; [auto|].
  intros H Hb. apply andb_true_iff in H as [Hc Ha]. rewrite Hc. simpl. auto.
Qed.

(** One quoted character reads back as itself. *)
Lemma parse_chars_quote_char (c : ascii) (tail : string) :
  parse_chars (quote_char c ++ tail)
  = match parse_chars tail with
    | Some (str, rest) => Some (String c str, rest)
    | None => None
    end.
Proof.
  destruct c as [[] [] [] [] [] [] [] []]; cbn;
    destruct (parse_chars tail) as [[str rest]|]; reflexivity.
Qed.

Lemma parse_chars_quote_chars (s rest : string) :
  parse_chars (quote_chars s ++ dquote ++ rest) = Some (s, rest).
Proof.
  induction s as [|c s IH]; [reflexivity|].
  simpl quote_chars. rewrite append_assoc, parse_chars_quote_char, IH.
  reflexivity.
Qed.

Lemma value_end_no_digit (c : ascii) (rest : string) :
  value_end (String c rest) = true -> digit_of c Nil = None.
Proof.
  unfold value_end. destruct (digit_of c Nil); [discriminate | reflexivity].
Qed.

Lemma value_end_no_fraction (rest : string) :
  value_end rest = true -> starts_fraction rest = false.
Proof.
  destruct rest as [|c rest]; [reflexivity|]. unfold value_end.
  destruct (digit_of c Nil); [discriminate|].
  intros H. now apply negb_true_iff in H.
Qed.

Lemma parse_digits_string_of_uint (u : uint) (rest : string) :
  value_end rest = true ->
  parse_digits (NilEmpty.string_of_uint u ++ rest) = (u, rest).
Proof.
  intros Hend.
  induction u as [|u IH|u IH|u IH|u IH|u IH|u IH|u IH|u IH|u IH|u IH];
    simpl; try (rewrite IH; reflexivity).
  destruct rest as [|c rest]; [reflexivity|]. simpl.
  now rewrite (value_end_no_digit _ _ Hend).
Qed.

Lemma parse_integer_string_of_uint (negative : bool) (u : uint) (rest : string) :
  canonical_uint u = true -> value_end rest = true ->
  parse_integer negative (NilEmpty.string_of_uint u ++ rest)
  = Some (JNum (Z.of_int (if negative then Decimal.Neg u else Decimal.Pos u)),
          rest).
Proof.
  intros Hu Hend. unfold parse_integer.
  rewrite (parse_digits_string_of_uint _ _ Hend), Hu.
  now rewrite (value_end_no_fraction _ Hend).
Qed.

Lemma nzhead_no_leading_zero (u v : uint) : nzhead u <> D0 v.
Proof.
  induction u; simpl; try discriminate; assumption.
Qed.

Lemma to_uint_canonical (p : positive) : canonical_uint (Pos.to_uint p) = true.
Proof.
  pose proof (DecimalPos.Unsigned.to_of (Pos.to_uint p)) as H.
  rewrite DecimalPos.Unsigned.of_to in H. simpl in H.
  pose proof (DecimalPos.Unsigned.to_uint_nonnil p) as Hnil.
  pose proof (DecimalPos.Unsigned.to_uint_nonzero p) as Hzero.
  destruct (Pos.to_uint p) as [|u| | | | | | | | | ]; try reflexivity;
    try contradiction.
  destruct u as [|w| | | | | | | | | ]; try reflexivity; exfalso;
    try discriminate H.
  unfold unorm in H. simpl nzhead in H.
  destruct (nzhead w) eqn:E; try discriminate H.
  exact (nzhead_no_leading_zero _ _ E).
Qed.

Lemma to_int_canonical (n : Z) :
  match Z.to_int n with
  | Decimal.Pos u => canonical_uint u = true
  | Decimal.Neg u => canonical_uint u = true
  end.
Proof.
  destruct n; simpl; [reflexivity | apply to_uint_canonical ..].
Qed.

Lemma parse_number_string_of_Z (n : Z) (rest : string) :
  value_end rest = true ->
  parse_number (string_of_Z n ++ rest) = Some (JNum n, rest).
Proof.
  intros Hend. pose proof (to_int_canonical n) as Hc.
  pose proof (DecimalZ.of_to n) as Hn. unfold string_of_Z.
  destruct (Z.to_int n) as [u|u].
  - rewrite <- Hn.
    rewrite <- (parse_integer_string_of_uint false u rest Hc Hend).
    destruct u; try discriminate; reflexivity.
  - rewrite <- Hn.
    rewrite <- (parse_integer_string_of_uint true u rest Hc Hend).
    reflexivity.
Qed.

Lemma parse_value_number (fuel : nat) (n : Z) (rest : string) :
  parse_value (S fuel) (string_of_Z n ++ rest)
  = parse_number (string_of_Z n ++ rest).
Proof.
  pose proof (to_int_canonical n) as Hc. unfold string_of_Z.
  destruct (Z.to_int n) as [u|u]; [|reflexivity].
  destruct u; try discriminate; reflexivity.
Qed.

Lemma length_append (a b : string) :
  String.length (a ++ b) = (String.length a + String.length b)%nat.
Proof.
  induction a as [|c a IH]; simpl; [reflexivity | now rewrite IH].
Qed.

Lemma parse_value_skip_blank (fuel : nat) (w s : string) :
  is_blank w = true -> parse_value fuel (w ++ s) = parse_value fuel s.
Proof.
  intros Hw. destruct fuel; [reflexivity|]. simpl.
  now rewrite (skip_ws_blank _ _ Hw).
Qed.

Lemma value_end_ws (c : ascii) (s : string) :
  is_ws c = true -> value_end (String c s) = true.
Proof.
  destruct c as [[] [] [] [] [] [] [] []]; try discriminate; reflexivity.
Qed.

Lemma value_end_blank (w s : string) :
  is_blank w = true -> value_end s = true -> value_end (w ++ s) = true.
Proof.
  destruct w as [|c w]; [auto|]. simpl is_blank. intros H _.
  apply andb_true_iff in H as [Hc _]. now apply value_end_ws.
Qed.

(** The first character of a serialized value: no white space, and not a
    closing bracket or brace. *)
Lemma serialize_head (gap indent : string) (v : JSON) (rest : string) :
  exists c tl,
    SerializeJSON gap indent v ++ rest = String c tl /\
    is_ws c = false /\ (N_of_ascii c =? 93)%N = false /\
    (N_of_ascii c =? 125)%N = false.
Proof.
  destruct v as [| [] | n | s | [|x l] | [|p l]];
    try (do 2 eexists; split; [reflexivity | repeat split]).
  - pose proof (to_int_canonical n) as Hc. simpl. unfold string_of_Z.
    destruct (Z.to_int n) as [u|u];
      [destruct u; try discriminate|];
      do 2 eexists; (split; [reflexivity | repeat split]).
  - simpl. destruct (is_empty gap);
      do 2 eexists; (split; [reflexivity | repeat split]).
  - simpl. destruct (is_empty gap);
      do 2 eexists; (split; [reflexivity | repeat split]).
Qed.

Lemma skip_ws_head (c : ascii) (tl : string) :
  is_ws c = false -> skip_ws (String c tl) = String c tl.
Proof.
  intros H. simpl. now rewrite H.
Qed.

(** The separator written before an element and before the closing
    bracket: nothing without a gap, a new line and the indentation with
    one. *)
Lemma SerializeJSON_array (gap indent : string) (x : JSON) (l : list JSON) :
  exists w1 w2,
    (is_blank gap = true -> is_blank indent = true ->
     is_blank w1 = true /\ is_blank w2 = true) /\
    SerializeJSON gap indent (JArr (x :: l))
    = "[" ++ w1
          ++ String.concat ("," ++ w1)
               (map (SerializeJSON gap (indent ++ gap)) (x :: l))
          ++ w2 ++ "]".
Proof.
  destruct gap as [|g gap].
  - exists EmptyString, EmptyString. split; [auto|]. reflexivity.
  - exists (nl ++ indent ++ String g gap), (nl ++ indent). split.
    + intros Hg Hi. split.
      * apply is_blank_app; [reflexivity|]. now apply is_blank_app.
      * apply is_blank_app; [reflexivity | assumption].
    + cbn [SerializeJSON is_empty]. rewrite !append_assoc. reflexivity.
Qed.

Lemma SerializeJSON_object (gap indent : string) (p : string * JSON)
      (l : list (string * JSON)) :
  exists w1 w2 sp,
    (is_blank gap = true -> is_blank indent = true ->
     is_blank w1 = true /\ is_blank w2 = true /\ is_blank sp = true) /\
    SerializeJSON gap indent (JObj (p :: l))
    = "{" ++ w1
          ++ String.concat ("," ++ w1)
               (map (fun q => QuoteJSONString (fst q) ++ ":" ++ sp
                                ++ SerializeJSON gap (indent ++ gap) (snd q))
                    (p :: l))
          ++ w2 ++ "}".
Proof.
  destruct gap as [|g gap].
  - exists EmptyString, EmptyString, EmptyString. split; [auto|]. reflexivity.
  - exists (nl ++ indent ++ String g gap), (nl ++ indent), " ". split.
    + intros Hg Hi. repeat split.
      * apply is_blank_app; [reflexivity|]. now apply is_blank_app.
      * apply is_blank_app; [reflexivity | assumption].
    + cbn [SerializeJSON is_empty]. rewrite !append_assoc. reflexivity.
Qed.

Lemma parse_value_array (fuel : nat) (body : string) (c : ascii) (tl : string) :
  skip_ws body = String c tl -> (N_of_ascii c =? 93)%N = false ->
  parse_value (S fuel) (String "[" body)
  = option_map (fun p => (JArr (fst p), snd p))
               (parse_elements (parse_value fuel) fuel body).
Proof.
  intros Hb Hc. cbn. rewrite Hb, Hc. reflexivity.
Qed.

Lemma parse_value_object (fuel : nat) (body : string) (c : ascii) (tl : string) :
  skip_ws body = String c tl -> (N_of_ascii c =? 125)%N = false ->
  parse_value (S fuel) (String "{" body)
  = option_map (fun p => (JObj (build_object (fst p)), snd p))
               (parse_members (parse_value fuel) fuel body).
Proof.
  intros Hb Hc. cbn. rewrite Hb, Hc. reflexivity.
Qed.

(** The elements of a serialized array read back, given that each of them
    does. *)
Lemma parse_elements_serialize (value : string -> option (JSON * string))
      (ser : JSON -> string) (w1 w2 rest : string) :
  is_blank w1 = true -> is_blank w2 = true ->
  (forall w s, is_blank w = true -> value (w ++ s) = value s) ->
  forall l,
    l <> [] ->
    Forall (fun x => forall rest', value_end rest' = true ->
                                   value (ser x ++ rest') = Some (x, rest')) l ->
    forall n, (List.length l <= n)%nat ->
    parse_elements value n
      (w1 ++ String.concat ("," ++ w1) (map ser l) ++ w2 ++ "]" ++ rest)
    = Some (l, rest).
Proof.
  intros Hw1 Hw2 Hskip l. induction l as [|x l IH]; [contradiction|].
  intros _ Hall n Hn. inversion Hall as [|? ? Hx Hl]; subst.
  destruct n as [|n]; [simpl in Hn; lia|]. simpl in Hn.
  cbn [parse_elements]. rewrite (Hskip _ _ Hw1).
  destruct l as [|y l].
  - cbn [map String.concat]. rewrite Hx.
    + rewrite (skip_ws_blank _ _ Hw2). reflexivity.
    + apply value_end_blank; [assumption | reflexivity].
  - pose proof (IH ltac:(discriminate) Hl n ltac:(simpl in *; lia)) as IH'.
    change (String.concat ("," ++ w1) (map ser (x :: y :: l)))
      with (ser x ++ ("," ++ w1) ++ String.concat ("," ++ w1) (map ser (y :: l))).
    rewrite !append_assoc. rewrite Hx; [|reflexivity].
    cbn [append] in IH' |- *. rewrite skip_ws_head by reflexivity.
    change (N_of_ascii "," =? 44)%N with true. cbv iota.
    rewrite IH'. reflexivity.
Qed.

(** One member [key: value] read by hand: the key, the colon, the value. *)
Lemma parse_members_step (value : string -> option (JSON * string))
      (n : nat) (w1 : string) (k : string) (body : string) :
  is_blank w1 = true ->
  parse_members value (S n) (w1 ++ QuoteJSONString k ++ ":" ++ body)
  = match value body with
    | Some (v, rest3) =>
        match skip_ws rest3 with
        | String d rest4 =>
            if (N_of_ascii d =? 44)%N then
              match parse_members value n rest4 with
              | Some (ms, rest5) => Some ((k, v) :: ms, rest5)
              | None => None
              end
            else if (N_of_ascii d =? 125)%N then Some ([(k, v)], rest4)
            else None
        | EmptyString => None
        end
    | None => None
    end.
Proof.
  intros Hw1. cbn [parse_members]. rewrite (skip_ws_blank _ _ Hw1).
  unfold QuoteJSONString. rewrite !append_assoc.
  change (dquote ++ quote_chars k ++ dquote ++ ":" ++ body)
    with (String "034" (quote_chars k ++ dquote ++ String ":" body)).
  rewrite skip_ws_head by reflexivity.
  change (N_of_ascii "034" =? 34)%N with true. cbv iota.
  rewrite parse_chars_quote_chars. rewrite skip_ws_head by reflexivity.
  change (N_of_ascii ":" =? 58)%N with true. cbv iota. reflexivity.
Qed.

Lemma parse_members_serialize (value : string -> option (JSON * string))
      (ser : JSON -> string) (w1 w2 sp rest : string) :
  is_blank w1 = true -> is_blank w2 = true -> is_blank sp = true ->
  (forall w s, is_blank w = true -> value (w ++ s) = value s) ->
  forall l,
    l <> [] ->
    Forall (fun p => forall rest', value_end rest' = true ->
                       value (ser (snd p) ++ rest') = Some (snd p, rest')) l ->
    forall n, (List.length l <= n)%nat ->
    parse_members value n
      (w1 ++ String.concat ("," ++ w1)
                (map (fun q => QuoteJSONString (fst q) ++ ":" ++ sp
                                 ++ ser (snd q)) l)
          ++ w2 ++ "}" ++ rest)
    = Some (l, rest).
Proof.
  intros Hw1 Hw2 Hsp Hskip l. induction l as [|[k x] l IH]; [contradiction|].
  intros _ Hall n Hn. inversion Hall as [|? ? Hx Hl]; subst. simpl in Hx.
  destruct n as [|n]; [simpl in Hn; lia|].
  destruct l as [|[k' y] l].
  - cbn [map String.concat fst snd]. rewrite !append_assoc.
    rewrite (parse_members_step value n w1 k _ Hw1).
    rewrite (Hskip _ _ Hsp). rewrite Hx.
    + rewrite (skip_ws_blank _ _ Hw2). reflexivity.
    + apply value_end_blank; [assumption | reflexivity].
  - pose proof (IH ltac:(discriminate) Hl n ltac:(simpl in *; lia)) as IH'.
    set (member := fun q : string * JSON =>
                     QuoteJSONString (fst q) ++ ":" ++ sp ++ ser (snd q)) in *.
    change (String.concat ("," ++ w1) (map member ((k, x) :: (k', y) :: l)))
      with ((QuoteJSONString k ++ ":" ++ sp ++ ser x)
              ++ ("," ++ w1)
              ++ String.concat ("," ++ w1) (map member ((k', y) :: l))).
    rewrite !append_assoc.
    rewrite (parse_members_step value n w1 k _ Hw1).
    rewrite (Hskip _ _ Hsp). rewrite Hx; [|reflexivity].
    cbn [append] in IH' |- *. rewrite skip_ws_head by reflexivity.
    change (N_of_ascii "," =? 44)%N with true. cbv iota.
    rewrite IH'. reflexivity.
Qed.

Lemma concat_head (sep a : string) (l : list string) :
  exists tail, String.concat sep (a :: l) = a ++ tail.
Proof.
  destruct l as [|b l]; simpl.
  - exists EmptyString. now rewrite append_nil_r.
  - eexists. reflexivity.
Qed.

Lemma size_positive (v : JSON) : (1 <= size v)%nat.
Proof.
  destruct v; simpl; lia.
Qed.

Lemma well_formed_items (items : list JSON) :
  well_formed (JArr items) <-> Forall well_formed items.
Proof.
  induction items as [|x l IH]; simpl.
  - split; auto.
  - split.
    + intros [Hx Hl]. constructor; [assumption | now apply IH].
    + intros H. inversion H; subst. split; [assumption | now apply IH].
Qed.

Lemma well_formed_props (props : list (string * JSON)) :
  well_formed (JObj props)
  <-> build_object props = props /\ Forall (fun p => well_formed (snd p)) props.
Proof.
  simpl. apply and_iff_compat_l.
  induction props as [|p l IH]; simpl.
  - split; auto.
  - split.
    + intros [Hx Hl]. constructor; [assumption | now apply IH].
    + intros H. inversion H; subst. split; [assumption | now apply IH].
Qed.

Lemma size_items (items : list JSON) :
  (List.length items <= fold_right (fun x n => size x + n) 0 items)%nat /\
  Forall (fun x => size x <= fold_right (fun x n => size x + n) 0 items)%nat
         items.
Proof.
  induction items as [|x l [IH1 IH2]]; simpl; [split; [lia | constructor]|].
  pose proof (size_positive x). split; [lia|].
  constructor; [lia|]. eapply Forall_impl; [|exact IH2].
  intros a Ha. simpl in Ha. lia.
Qed.

Lemma size_props (props : list (string * JSON)) :
  (List.length props <= fold_right (fun p n => size (snd p) + n) 0 props)%nat /\
  Forall (fun p => size (snd p)
                   <= fold_right (fun p n => size (snd p) + n) 0 props)%nat
         props.
Proof.
  induction props as [|x l [IH1 IH2]]; simpl; [split; [lia | constructor]|].
  pose proof (size_positive (snd x)). split; [lia|].
  constructor; [lia|]. eapply Forall_impl; [|exact IH2].
  intros a Ha. simpl in Ha. lia.
Qed.

(** A serialized value, whatever the gap and the indentation, reads back
    as the value, and the reader stops right after it. *)
Lemma parse_value_serialize (gap : string) (Hgap : is_blank gap = true) :
  forall v indent fuel rest,
    is_blank indent = true -> well_formed v -> (size v <= fuel)%nat ->
    value_end rest = true ->
    parse_value fuel (SerializeJSON gap indent v ++ rest) = Some (v, rest).
Proof.
  induction v as [| b | n | s | items IH | props IH] using JSON_induction;
    intros indent fuel rest Hind Hwf Hsize Hend;
    (destruct fuel as [|fuel]; [pose proof (size_positive JNull); simpl in Hsize; lia|]).
  - reflexivity.
  - destruct b; reflexivity.
  - cbn [SerializeJSON]. rewrite parse_value_number.
    now apply parse_number_string_of_Z.
  - cbn [SerializeJSON]. unfold QuoteJSONString. rewrite !append_assoc.
    change (dquote ++ quote_chars s ++ dquote ++ rest)
      with (String "034" (quote_chars s ++ dquote ++ rest)).
    cbn [parse_value]. rewrite skip_ws_head by reflexivity.
    change (N_of_ascii "034") with 34%N. cbn [N.eqb Pos.eqb].
    rewrite parse_chars_quote_chars. reflexivity.
  - destruct items as [|x l]; [reflexivity|].
    destruct (SerializeJSON_array gap indent x l) as (w1 & w2 & Hb & Heq).
    destruct (Hb Hgap Hind) as [Hw1 Hw2]. rewrite Heq. clear Heq Hb.
    apply well_formed_items in Hwf.
    destruct (size_items (x :: l)) as [Hlen Hsizes].
    simpl size in Hsize.
    assert (Hind' : is_blank (indent ++ gap) = true)
      by now apply is_blank_app.
    assert (Hall : Forall (fun y => forall rest',
                             value_end rest' = true ->
                             parse_value fuel
                               (SerializeJSON gap (indent ++ gap) y ++ rest')
                             = Some (y, rest')) (x :: l)).
    { rewrite Forall_forall in IH, Hwf, Hsizes |- *.
      intros y Hy rest' Hend'. apply IH; auto.
      specialize (Hsizes y Hy). simpl in Hsizes. lia. }
    rewrite !append_assoc.
    change ("[" ++ w1 ++ String.concat ("," ++ w1)
                          (map (SerializeJSON gap (indent ++ gap)) (x :: l))
                ++ w2 ++ "]" ++ rest)
      with (String "[" (w1 ++ String.concat ("," ++ w1)
                          (map (SerializeJSON gap (indent ++ gap)) (x :: l))
                          ++ w2 ++ "]" ++ rest)).
    destruct (concat_head ("," ++ w1)
                (SerializeJSON gap (indent ++ gap) x)
                (map (SerializeJSON gap (indent ++ gap)) l)) as [tail Htail].
    destruct (serialize_head gap (indent ++ gap) x (tail ++ w2 ++ "]" ++ rest))
      as (c & tl & Hc & Hws & Hc1 & _).
    rewrite (parse_value_array fuel _ c tl).
    + rewrite (parse_elements_serialize (parse_value fuel)
                 (SerializeJSON gap (indent ++ gap)) w1 w2 rest Hw1 Hw2
                 (parse_value_skip_blank fuel) (x :: l) ltac:(discriminate)
                 Hall fuel ltac:(simpl in *; lia)).
      reflexivity.
    + rewrite (skip_ws_blank _ _ Hw1). cbn [map]. rewrite Htail.
      rewrite append_assoc, Hc. now apply skip_ws_head.
    + exact Hc1.
  - destruct props as [|p l]; [reflexivity|].
    destruct (SerializeJSON_object gap indent p l) as (w1 & w2 & sp & Hb & Heq).
    destruct (Hb Hgap Hind) as (Hw1 & Hw2 & Hsp). rewrite Heq. clear Heq Hb.
    apply well_formed_props in Hwf. destruct Hwf as [Hbuild Hwf].
    destruct (size_props (p :: l)) as [Hlen Hsizes].
    simpl size in Hsize.
    assert (Hind' : is_blank (indent ++ gap) = true)
      by now apply is_blank_app.
    assert (Hall : Forall (fun q => forall rest',
                             value_end rest' = true ->
                             parse_value fuel
                               (SerializeJSON gap (indent ++ gap) (snd q) ++ rest')
                             = Some (snd q, rest')) (p :: l)).
    { rewrite Forall_forall in IH, Hwf, Hsizes |- *.
      intros q Hq rest' Hend'. apply IH; auto.
      specialize (Hsizes q Hq). simpl in Hsizes. lia. }
    rewrite !append_assoc.
    set (member := fun q : string * JSON =>
                     QuoteJSONString (fst q) ++ ":" ++ sp
                       ++ SerializeJSON gap (indent ++ gap) (snd q)).
    change ("{" ++ w1 ++ String.concat ("," ++ w1) (map member (p :: l))
                ++ w2 ++ "}" ++ rest)
      with (String "{" (w1 ++ String.concat ("," ++ w1) (map member (p :: l))
                          ++ w2 ++ "}" ++ rest)).
    destruct (concat_head ("," ++ w1) (member p) (map member l))
      as [tail Htail].
    rewrite (parse_value_object fuel _ "034" 
               (quote_chars (fst p) ++ dquote ++ ":" ++ sp
                  ++ SerializeJSON gap (indent ++ gap) (snd p)
                  ++ tail ++ w2 ++ "}" ++ rest)).
    + subst member.
      rewrite (parse_members_serialize (parse_value fuel)
                 (SerializeJSON gap (indent ++ gap)) w1 w2 sp rest Hw1 Hw2 Hsp
                 (parse_value_skip_blank fuel) (p :: l) ltac:(discriminate)
                 Hall fuel ltac:(simpl in *; lia)).
      simpl. rewrite Hbuild. reflexivity.
    + rewrite (skip_ws_blank _ _ Hw1). cbn [map]. rewrite Htail.
      subst member. cbv beta. unfold QuoteJSONString.
      rewrite !append_assoc. reflexivity.
    + reflexivity.
Qed.

Lemma concat_length {A} (measure : A -> nat) (f : A -> string) (sep : string)
      (l : list A) :
  Forall (fun x => measure x <= String.length (f x))%nat l ->
  (fold_right (fun x n => measure x + n) 0 l
   <= String.length (String.concat sep (map f l)))%nat.
Proof.
  induction l as [|x l IH]; intros H; [simpl; lia|].
  inversion H as [|? ? Hx Hl]; subst. specialize (IH Hl).
  destruct l as [|y l].
  - simpl. lia.
  - change (String.concat sep (map f (x :: y :: l)))
      with (f x ++ sep ++ String.concat sep (map f (y :: l))).
    rewrite !length_append.
    change (fold_right (fun x n => measure x + n) 0 (x :: y :: l))%nat
      with (measure x + fold_right (fun x n => measure x + n) 0 (y :: l))%nat.
    lia.
Qed.

Lemma size_le_length (gap : string) (v : JSON) :
  forall indent, (size v <= String.length (SerializeJSON gap indent v))%nat.
Proof.
  induction v as [| b | n | s | items IH | props IH] using JSON_induction;
    intros indent.
  - simpl. lia.
  - destruct b; simpl; lia.
  - pose proof (to_int_canonical n) as Hc. simpl. unfold string_of_Z.
    destruct (Z.to_int n) as [u|u]; [|simpl; lia].
    destruct u; try discriminate; simpl; lia.
  - simpl. lia.
  - destruct items as [|x l]; [simpl; lia|].
    destruct (SerializeJSON_array gap indent x l) as (w1 & w2 & _ & Heq).
    rewrite Heq. rewrite !length_append.
    assert (H : Forall (fun y => size y <= String.length
                                   (SerializeJSON gap (indent ++ gap) y))%nat
                       (x :: l)).
    { eapply Forall_impl; [|exact IH]. intros a Ha. apply Ha. }
    apply (concat_length size _ ("," ++ w1)) in H.
    change (size (JArr (x :: l)))
      with (S (fold_right (fun x n => size x + n) 0 (x :: l)))%nat.
    simpl String.length at 1. lia.
  - destruct props as [|p l]; [simpl; lia|].
    destruct (SerializeJSON_object gap indent p l) as (w1 & w2 & sp & _ & Heq).
    rewrite Heq. rewrite !length_append.
    assert (H : Forall (fun q => size (snd q)
                                 <= String.length
                                      (QuoteJSONString (fst q) ++ ":" ++ sp
                                         ++ SerializeJSON gap (indent ++ gap)
                                              (snd q)))%nat
                       (p :: l)).
    { eapply Forall_impl; [|exact IH]. intros a Ha. cbv beta.
      rewrite !length_append. specialize (Ha (indent ++ gap)). lia. }
    apply (concat_length (fun q => size (snd q)) _ ("," ++ w1)) in H.
    change (size (JObj (p :: l)))
      with (S (fold_right (fun q n => size (snd q) + n) 0 (p :: l)))%nat.
    simpl String.length at 1. lia.
Qed.

(** [JSON.parse] undoes [JSON.stringify], with or without indentation. *)
Lemma JSON_parse_serialize (gap : string) (v : JSON) :
  is_blank gap = true -> well_formed v ->
  JSON_parse (SerializeJSON gap EmptyString v) = Some v.
Proof.
  intros Hgap Hwf. unfold JSON_parse.
  pose proof (parse_value_serialize gap Hgap v EmptyString
                (S (String.length (SerializeJSON gap EmptyString v)))
                EmptyString eq_refl Hwf) as H.
  rewrite append_nil_r in H. rewrite H; [reflexivity | | reflexivity].
  pose proof (size_le_length gap v EmptyString). lia.
Qed.

(** ** The translate handler on an upstream success *)

(** C6 (as amended): on an upstream success response whose [translations]
    is a sequence, the translate handler returns exactly one text content
    block with mime type [application/json]; its text is that sequence
    serialized with indentation 2, and parsing it back yields the upstream
    sequence itself, entry for entry in the same order.  It matches the
    input [text] sequence, in length and position by position, whenever the
    upstream answered with one entry per input string in input order. *)
Theorem translate_success_block (args : option JSON) (t : list string)
        (tl : string) (sl : option string) (up : Upstream)
        (response : AxiosResponse.t) (translations : list JSON)
        (Hvalid : valid_TranslateRequest args t tl sl)
        (Hsuccess : forall body, up (POST "/v2/translate" body) = Fulfilled response)
        (Htranslations :
           get_prop (AxiosResponse.data response) "translations"
           = Some (JArr translations))
        (Hwf : well_formed (JArr translations)) :
  exists txt,
    fst (run (callTranslateText args) up)
    = Returned {| content := [TextContent.make "text" (Some txt)
                                               (Some "application/json")];
                  isError := None;
                  errorCode := None |} /\
    txt = SerializeJSON "  " EmptyString (JArr translations) /\
    JSON_parse txt = Some (JArr translations) /\
    (forall R : string -> JSON -> Prop,
        Forall2 R t translations ->
        exists parsed,
          JSON_parse txt = Some (JArr parsed) /\ Forall2 R t parsed /\
          List.length parsed = List.length t).
Proof.
  assert (Hv : TranslateTextInputSchema [] args
               = ZodOk {| text := t; target_lang := tl; source_lang := sl |})
    by (apply TranslateTextInputSchema_accepts; exact Hvalid).
  assert (Hparse : JSON_parse (SerializeJSON "  " EmptyString (JArr translations))
                   = Some (JArr translations))
    by (apply JSON_parse_serialize; [reflexivity | exact Hwf]).
  eexists. split; [|split; [reflexivity|split; [exact Hparse|]]].
  - unfold run, callTranslateText, bind, parse. rewrite Hv.
    unfold ret at 1. unfold request. rewrite Hsuccess. unfold member.
    destruct (AxiosResponse.data response); try discriminate Htranslations.
    unfold ret. rewrite Htranslations. reflexivity.
  - intros R HR. exists translations. split; [exact Hparse|].
    split; [exact HR|]. symmetry. eapply Forall2_length. exact HR.
Qed.

(** The entries DeepL documents are well formed, whatever their strings. *)
Lemma well_formed_translation (language translated : string) :
  well_formed (translation language translated).
Proof.
  simpl. repeat split.
Qed.

(** ** The properties at sample inputs *)

Lemma sample_args_valid :
  valid_TranslateRequest (Some sample_args) ["Hello world"; "How are you?"]
                         "DE" None.
Proof.
  unfold valid_TranslateRequest.
  repeat split; try reflexivity; [eexists; reflexivity | discriminate].
Qed.

Lemma sample_args_from_valid (source : string) :
  valid_TranslateRequest (Some (sample_args_from source))
                         ["Hello world"; "How are you?"] "DE" (Some source).
Proof.
  unfold valid_TranslateRequest.
  repeat split; try reflexivity; [eexists; reflexivity | discriminate].
Qed.

(** With a source language given, the POST carries it. *)
Lemma translate_issues_one_post_sample :
  exists body,
    snd (run (callTranslateText (Some (sample_args_from "EN"))) sample_upstream)
    = [POST "/v2/translate" body] /\
    get_prop body "text" = Some (JArr [JStr "Hello world"; JStr "How are you?"]) /\
    get_prop body "target_lang" = Some (JStr "DE") /\
    get_prop body "source_lang" = Some (JStr "EN") /\
    (get_prop body "source_lang" <> None
     <-> exists s, field (Some (sample_args_from "EN")) "source_lang"
                   = Some (JStr s) /\ s <> EmptyString).
Proof.
  exact (translate_issues_one_post
           (Some (sample_args_from "EN")) ["Hello world"; "How are you?"]
           "DE" (Some "EN") sample_upstream (sample_args_from_valid "EN")).
Defined.

(** C1 as stated fails: a caller who provides [source_lang] as the empty
    string has a valid request, and the POST goes out without
    [source_lang], the same as if it had been omitted. *)
Lemma translate_drops_empty_source_lang :
  valid_TranslateRequest (Some (sample_args_from EmptyString))
                         ["Hello world"; "How are you?"] "DE"
                         (Some EmptyString) /\
  field (Some (sample_args_from EmptyString)) "source_lang"
  = Some (JStr EmptyString) /\
  snd (run (callTranslateText (Some (sample_args_from EmptyString)))
           sample_upstream)
  = [POST "/v2/translate" sample_args] /\
  get_prop sample_args "source_lang" = None.
Proof.
  split; [apply sample_args_from_valid|]. repeat split.
Qed.

(** An empty [text] is refused before anything goes upstream. *)
Lemma invalid_translate_arguments_rejected_sample :
  exists response,
    run (callTool sdk_message
           {| name := "translate_text";
              arguments := Some (JObj [("text", JArr []);
                                       ("target_lang", JStr "DE")]) |})
        sample_upstream
    = (Returned response, []) /\
    isError response = Some true /\
    errorCode response = Some InvalidParams.
Proof.
  apply (invalid_translate_arguments_rejected sdk_message).
  reflexivity.
Defined.

Lemma forbidden_body_well_formed :
  well_formed (JObj [("message", JStr "Forbidden")]).
Proof.
  simpl. repeat split.
Qed.



(** The text for a 403 with a message in its body. *)
Lemma error_text_form_sample :
  exists m txt,
    mcpError_of sdk_message
      (ThrownAxiosError (http_failure 403 (JObj [("message", JStr "Forbidden")])))
    = Returned m /\
    content (error_response m) = [TextContent.make "text" (Some txt) None] /\
    txt = "Error: MCP error -32600: DeepL API Error (403): Forbidden"
            ++ nl ++ "Details: {" ++ dquote ++ "message" ++ dquote
            ++ ":" ++ dquote ++ "Forbidden" ++ dquote ++ "}".
Proof.
  destruct (error_text_form sdk_message
              (ThrownAxiosError
                 (http_failure 403 (JObj [("message", JStr "Forbidden")])))
              (error_response
                 (McpError.make InvalidRequest
                    "MCP error -32600: DeepL API Error (403): Forbidden"
                    (Some (JObj [("message", JStr "Forbidden")]))))
              eq_refl)
    as (m & txt & Hm & _ & Hcontent & Hdetails & _).
  exists m, txt. split; [exact Hm|].
  change (Returned
            (McpError.make InvalidRequest
               "MCP error -32600: DeepL API Error (403): Forbidden"
               (Some (JObj [("message", JStr "Forbidden")])))
          = Returned m) in Hm.
  injection Hm as <-. split; [exact Hcontent|].
  apply (Hdetails (JObj [("message", JStr "Forbidden")]) eq_refl
                  forbidden_body_well_formed).
  unfold empty_value. intros [H|[H|[H|[H|H]]]]; discriminate H.
Defined.

(** C9 as stated fails both ways.  An upstream failure with an empty body
    gives an error that carries details (the body, an empty string), and
    the text has no [Details] line; one whose body is a plain string gives
    details that are not structured, and the text has the line. *)
Lemma details_line_follows_truthiness :
  mcpError_of sdk_message (ThrownAxiosError (http_failure 503 (JStr EmptyString)))
  = Returned
      (McpError.make InternalError
         "MCP error -32603: DeepL API Error (503): Request failed with status code 503"
         (Some (JStr EmptyString))) /\
  handleToolError sdk_message
    (ThrownAxiosError (http_failure 503 (JStr EmptyString)))
  = Returned
      {| content :=
           [TextContent.make "text"
              (Some "Error: MCP error -32603: DeepL API Error (503): Request failed with status code 503")
              None];
         isError := Some true;
         errorCode := Some InternalError |} /\
  mcpError_of sdk_message (ThrownAxiosError (http_failure 502 (JStr "Bad Gateway")))
  = Returned
      (McpError.make InternalError
         "MCP error -32603: DeepL API Error (502): Request failed with status code 502"
         (Some (JStr "Bad Gateway"))) /\
  handleToolError sdk_message
    (ThrownAxiosError (http_failure 502 (JStr "Bad Gateway")))
  = Returned
      {| content :=
           [TextContent.make "text"
              (Some ("Error: MCP error -32603: DeepL API Error (502): Request failed with status code 502"
                       ++ nl ++ "Details: " ++ dquote ++ "Bad Gateway" ++ dquote))
              None];
         isError := Some true;
         errorCode := Some InternalError |}.
Proof. repeat split. Qed.

(** A tool the server does not have. *)
Lemma unknown_tool_method_not_found_sample :
  let params := {| name := "summarize"; arguments := Some sample_args |} in
  let e := new_McpError sdk_message MethodNotFound
                        "Tool 'summarize' not found." None in
  mcpError_of sdk_message (ThrownMcpError e) = Returned e /\
  run (callTool sdk_message params) sample_upstream
  = (Returned
       {| content :=
            [TextContent.make "text"
               (Some "Error: MCP error -32601: Tool 'summarize' not found.")
               None];
          isError := Some true;
          errorCode := Some MethodNotFound |},
     []).
Proof.
  apply (unknown_tool_method_not_found sdk_message
           {| name := "summarize"; arguments := Some sample_args |}
           sample_upstream); discriminate.
Defined.

(** A network failure: no response, no status. *)
Lemma network_failure_internal_error_sample :
  mcpError_of sdk_message (ThrownAxiosError network_failure)
  = Returned
      (new_McpError sdk_message InternalError
         "DeepL API Error (undefined): Network Error" None) /\
  handleToolError sdk_message (ThrownAxiosError network_failure)
  = Returned
      {| content :=
           [TextContent.make "text"
              (Some "Error: MCP error -32603: DeepL API Error (undefined): Network Error")
              None];
         isError := Some true;
         errorCode := Some InternalError |}.
Proof.
  exact (network_failure_internal_error sdk_message network_failure eq_refl).
Defined.

Lemma sample_translations_well_formed : well_formed (JArr sample_translations).
Proof.
  simpl. repeat split.
Qed.

(** The example of the specification: the block parses back to the
    upstream's [translations]. *)
Lemma translate_success_block_sample :
  exists txt,
    fst (run (callTranslateText (Some sample_args)) sample_upstream)
    = Returned {| content := [TextContent.make "text" (Some txt)
                                               (Some "application/json")];
                  isError := None;
                  errorCode := None |} /\
    txt = SerializeJSON "  " EmptyString (JArr sample_translations) /\
    JSON_parse txt = Some (JArr sample_translations) /\
    (forall R : string -> JSON -> Prop,
        Forall2 R ["Hello world"; "How are you?"] sample_translations ->
        exists parsed,
          JSON_parse txt = Some (JArr parsed) /\
          Forall2 R ["Hello world"; "How are you?"] parsed /\
          List.length parsed = List.length ["Hello world"; "How are you?"]).
Proof.
  exact (translate_success_block
           (Some sample_args) ["Hello world"; "How are you?"] "DE" None
           sample_upstream
           (AxiosResponse.make 200 (JObj [("translations", JArr sample_translations)]))
           sample_translations sample_args_valid (fun _ => eq_refl) eq_refl
           sample_translations_well_formed).
Defined.

(** C6 as stated fails: the handler passes on what the upstream sent.  Two
    strings went out, the upstream answered with one translation, and the
    block parses back to a sequence of length one. *)
Lemma translate_block_follows_upstream :
  valid_TranslateRequest (Some sample_args) ["Hello world"; "How are you?"]
                         "DE" None /\
  exists txt parsed,
    run (callTranslateText (Some sample_args)) short_upstream
    = (Returned {| content := [TextContent.make "text" (Some txt)
                                                (Some "application/json")];
                   isError := None;
                   errorCode := None |},
       [POST "/v2/translate" sample_args]) /\
    JSON_parse txt = Some (JArr parsed) /\
    List.length parsed = 1%nat /\
    List.length parsed <> List.length ["Hello world"; "How are you?"].
Proof.
  split; [exact sample_args_valid|].
  exists (SerializeJSON "  " EmptyString (JArr [translation "EN" "Hallo Welt"])).
  exists [translation "EN" "Hallo Welt"].
  repeat split; try reflexivity. discriminate.
Qed.

(** A 403 seen through the whole handler: the code, the message and the
    upstream body as details. *)
Example forbidden_response :
  run (callTool sdk_message
         {| name := "translate_text"; arguments := Some sample_args |})
      (failing 403 (JObj [("message", JStr "Forbidden")]))
  = (Returned
       {| content :=
            [TextContent.make "text"
               (Some ("Error: MCP error -32600: DeepL API Error (403): Forbidden"
                        ++ nl ++ "Details: {" ++ dquote ++ "message" ++ dquote
                        ++ ":" ++ dquote ++ "Forbidden" ++ dquote ++ "}"))
               None];
          isError := Some true;
          errorCode := Some InvalidRequest |},
     [POST "/v2/translate" sample_args]).
Proof. reflexivity. Qed.

(** An upstream failure whose body has a [message] that is an object with
    a property named [toString]: describing the error throws, and the
    handler throws with it, after the one request. *)
Example unprintable_message_thrown :
  handleToolError sdk_message (ThrownAxiosError (http_failure 400 unprintable_body))
  = Threw (ThrownError cannot_convert) /\
  run (callTool sdk_message
         {| name := "list_languages"; arguments := Some (JObj []) |})
      (failing 400 unprintable_body)
  = (Threw (ThrownError cannot_convert), [GET "/v2/languages" []]).
Proof. split; reflexivity. Qed.

(** The statuses the specification names. *)
Example statuses_named_in_the_specification :
  errorCode_for (Some 403) = InvalidRequest /\
  errorCode_for (Some 500) = InternalError /\
  errorCode_for (Some 400) = InvalidParams.
Proof. repeat split. Qed.

(** [list_languages] with [type: "source"], with an empty argument object,
    and with no [arguments] at all: the last one does not pass the schema,
    which wants an object. *)
Example list_languages_requests :
  snd (run (callListLanguages (Some (JObj [("type", JStr "source")])))
           sample_upstream)
  = [GET "/v2/languages" [("type", JStr "source")]] /\
  snd (run (callListLanguages (Some (JObj []))) sample_upstream)
  = [GET "/v2/languages" []] /\
  run (callListLanguages None) sample_upstream
  = (Threw (ThrownZodError [invalid_type "object" "undefined" []]), []).
Proof. repeat split. Qed.

(** A missing [target_lang], as Zod reports it. *)
Example missing_target_lang_issue :
  TranslateTextInputSchema [] (Some (JObj [("text", JArr [JStr "Hello"])]))
  = ZodFail [invalid_type "string" "undefined" [Key "target_lang"]].
Proof. reflexivity. Qed.

(** A [type] that is a number: the issue as [z.enum] writes it, with
    [expected] and [received] before [code]. *)
Example type_of_another_type_refused :
  run (callTool sdk_message
         {| name := "list_languages";
            arguments := Some (JObj [("type", JNum 5)]) |})
      sample_upstream
  = (Returned
       {| content :=
            [TextContent.make "text"
               (Some ("Error: MCP error -32602: Input validation failed"
                     ++ nl ++ "Details: [{" ++ dquote ++ "expected"
                     ++ dquote ++ ":" ++ dquote ++ "'source' | 'target'"
                     ++ dquote ++ "," ++ dquote ++ "received" ++ dquote
                     ++ ":" ++ dquote ++ "number" ++ dquote ++ ","
                     ++ dquote ++ "code" ++ dquote ++ ":" ++ dquote
                     ++ "invalid_type" ++ dquote ++ "," ++ dquote
                     ++ "path" ++ dquote ++ ":[" ++ dquote ++ "type"
                     ++ dquote ++ "]," ++ dquote ++ "message" ++ dquote
                     ++ ":" ++ dquote
                     ++ "Expected 'source' | 'target', received number"
                     ++ dquote ++ "}]"))
               None];
          isError := Some true;
          errorCode := Some InvalidParams |},
     []).
Proof. reflexivity. Qed.

(** A [type] that is a string outside the enumeration. *)
Example type_outside_the_enum_refused :
  run (callTool sdk_message
         {| name := "list_languages";
            arguments := Some (JObj [("type", JStr "both")]) |})
      sample_upstream
  = (Returned
       {| content :=
            [TextContent.make "text"
               (Some ("Error: MCP error -32602: Input validation failed"
                     ++ nl ++ "Details: [{" ++ dquote ++ "received"
                     ++ dquote ++ ":" ++ dquote ++ "both" ++ dquote
                     ++ "," ++ dquote ++ "code" ++ dquote ++ ":"
                     ++ dquote ++ "invalid_enum_value" ++ dquote ++ ","
                     ++ dquote ++ "options" ++ dquote ++ ":[" ++ dquote
                     ++ "source" ++ dquote ++ "," ++ dquote ++ "target"
                     ++ dquote ++ "]," ++ dquote ++ "path" ++ dquote
                     ++ ":[" ++ dquote ++ "type" ++ dquote ++ "],"
                     ++ dquote ++ "message" ++ dquote ++ ":" ++ dquote
                     ++ "Invalid enum value. Expected 'source' | 'target', received 'both'"
                     ++ dquote ++ "}]"))
               None];
          isError := Some true;
          errorCode := Some InvalidParams |},
     []).
Proof. reflexivity. Qed.

(** An empty [text] and no [target_lang]: both issues are shown, in the
    order of the schema. *)
Example empty_text_and_missing_target_lang_refused :
  run (callTool sdk_message
         {| name := "translate_text";
            arguments := Some (JObj [("text", JArr [])]) |})
      sample_upstream
  = (Returned
       {| content :=
            [TextContent.make "text"
               (Some ("Error: MCP error -32602: Input validation failed"
                     ++ nl ++ "Details: [{" ++ dquote ++ "code"
                     ++ dquote ++ ":" ++ dquote ++ "too_small" ++ dquote
                     ++ "," ++ dquote ++ "minimum" ++ dquote ++ ":1,"
                     ++ dquote ++ "type" ++ dquote ++ ":" ++ dquote
                     ++ "array" ++ dquote ++ "," ++ dquote
                     ++ "inclusive" ++ dquote ++ ":true," ++ dquote
                     ++ "exact" ++ dquote ++ ":false," ++ dquote
                     ++ "message" ++ dquote ++ ":" ++ dquote
                     ++ "The 'text' array cannot be empty." ++ dquote
                     ++ "," ++ dquote ++ "path" ++ dquote ++ ":["
                     ++ dquote ++ "text" ++ dquote ++ "]},{" ++ dquote
                     ++ "code" ++ dquote ++ ":" ++ dquote
                     ++ "invalid_type" ++ dquote ++ "," ++ dquote
                     ++ "expected" ++ dquote ++ ":" ++ dquote
                     ++ "string" ++ dquote ++ "," ++ dquote
                     ++ "received" ++ dquote ++ ":" ++ dquote
                     ++ "undefined" ++ dquote ++ "," ++ dquote ++ "path"
                     ++ dquote ++ ":[" ++ dquote ++ "target_lang"
                     ++ dquote ++ "]," ++ dquote ++ "message" ++ dquote
                     ++ ":" ++ dquote ++ "Required" ++ dquote ++ "}]"))
               None];
          isError := Some true;
          errorCode := Some InvalidParams |},
     []).
Proof. reflexivity. Qed.

(** An upstream body without [translations], and a [null] body: the first
    leaves the block without text, the second is a fault that the
    dispatcher turns into an InternalError response. *)
Example malformed_success_bodies :
  fst (run (callTranslateText (Some sample_args)) (answering 200 (JObj [])))
  = Returned {| content := [TextContent.make "text" None
                                             (Some "application/json")];
                isError := None;
                errorCode := None |} /\
  fst (run (callTool sdk_message
              {| name := "translate_text"; arguments := Some sample_args |})
           (answering 200 JNull))
  = Returned
      {| content :=
           [TextContent.make "text"
              (Some "Error: MCP error -32603: An unexpected error occurred: Cannot read properties of null (reading 'translations')")
              None];
         isError := Some true;
         errorCode := Some InternalError |}.
Proof. split; reflexivity. Qed.

(** An upstream that cannot be reached, seen through the whole handler. *)
Example unreachable_response :
  run (callTool sdk_message
         {| name := "list_languages"; arguments := Some (JObj []) |})
      unreachable
  = (Returned
       {| content :=
            [TextContent.make "text"
               (Some "Error: MCP error -32603: DeepL API Error (undefined): Network Error")
               None];
          isError := Some true;
          errorCode := Some InternalError |},
     [GET "/v2/languages" []]).
Proof. reflexivity. Qed.

(** ** Further properties of the dispatcher and the handlers *)

Section Coverage.

Variable M : ErrorCode -> string -> string.

(** The whole run of [callTranslateText], case by case. *)
Lemma run_callTranslateText (args : option JSON) (up : Upstream) :
  run (callTranslateText args) up
  = match TranslateTextInputSchema [] args with
    | ZodFail errors => (Threw (ThrownZodError errors), [])
    | ZodOk v =>
        let r := POST "/v2/translate" (translate_body v) in
        match up r with
        | Rejected reason => (Threw reason, [r])
        | Fulfilled response =>
            match AxiosResponse.data response with
            | JNull =>
                (Threw (ThrownError
                          "Cannot read properties of null (reading 'translations')"),
                 [r])
            | body =>
                (Returned
                   {| content :=
                        [TextContent.make "text"
                           (JSON_stringify_2 (get_prop body "translations"))
                           (Some "application/json")];
                      isError := None;
                      errorCode := None |},
                 [r])
            end
        end
    end.
Proof.
  unfold run, callTranslateText, bind, parse.
  destruct (TranslateTextInputSchema [] args) as [v|errors]; [|reflexivity].
  unfold ret at 1. unfold request, translate_body. cbv zeta.
  assert (Hs : match source_lang v with
               | Some s => if truthy (Some (JStr s))
                           then [("source_lang", JStr s)] else []
               | None => []
               end
               = match source_lang v with
                 | Some s => if is_empty s then [] else [("source_lang", JStr s)]
                 | None => []
                 end).
  { destruct (source_lang v) as [[|c s]|]; reflexivity. }
  rewrite Hs.
  destruct (up _) as [response|reason]; [|reflexivity].
  unfold member. destruct (AxiosResponse.data response); reflexivity.
Qed.

(** The whole run of [callListLanguages], case by case. *)
Lemma run_callListLanguages (args : option JSON) (up : Upstream) :
  run (callListLanguages args) up
  = match ListLanguagesInputSchema [] args with
    | ZodFail errors => (Threw (ThrownZodError errors), [])
    | ZodOk _ =>
        let r := GET "/v2/languages" (languages_params args) in
        match up r with
        | Rejected reason => (Threw reason, [r])
        | Fulfilled response =>
            (Returned
               {| content :=
                    [TextContent.make "text"
                       (Some (SerializeJSON "  " EmptyString
                                (AxiosResponse.data response)))
                       (Some "application/json")];
                  isError := None;
                  errorCode := None |},
             [r])
        end
    end.
Proof.
  unfold run, callListLanguages, bind, parse.
  destruct (ListLanguagesInputSchema [] args) as [v|errors] eqn:Ev;
    [|reflexivity].
  pose proof (ListLanguagesInputSchema_type _ _ Ev) as Ht.
  pose proof (fun t => ListLanguagesInputSchema_enum _ _ t Ev) as Hen.
  unfold ret at 1. unfold request, languages_params. rewrite Ht. cbv zeta.
  assert (Hp : match type v with
               | Some t => if truthy (Some (JStr t)) then [("type", JStr t)] else []
               | None => []
               end
               = match option_map JStr (type v) with
                 | Some t => [("type", t)]
                 | None => []
                 end).
  { destruct (type v) as [t|]; [|reflexivity].
    destruct (Hen t eq_refl) as [-> | ->]; reflexivity. }
  rewrite Hp. destruct (up _); reflexivity.
Qed.

(** The three ways of [dispatch]. *)
Lemma dispatch_cases (params : CallToolParams) :
  (name params = "translate_text" /\
   dispatch M params = callTranslateText (arguments params)) \/
  (name params = "list_languages" /\
   dispatch M params = callListLanguages (arguments params)) \/
  (~ In (name params) (map Tool.name listTools) /\
   dispatch M params
   = throw (ThrownMcpError
              (new_McpError M MethodNotFound
                            ("Tool '" ++ name params ++ "' not found.") None))).
Proof.
  unfold dispatch.
  destruct (String.eqb_spec (name params) "translate_text") as [H1|H1];
    [left; auto|].
  destruct (String.eqb_spec (name params) "list_languages") as [H2|H2];
    [right; left; auto|].
  right; right. split; [|reflexivity].
  simpl. intros [H|[H|[]]]; congruence.
Qed.

Lemma accepted_ok {A} (r : ZodResult A) :
  accepted r = true <-> exists v, r = ZodOk v.
Proof.
  destruct r; simpl; split; intros H; eauto; try discriminate.
  destruct H as [v H]. discriminate.
Qed.

Lemma callTool_log (params : CallToolParams) (up : Upstream) :
  snd (run (callTool M params) up) = snd (run (dispatch M params) up).
Proof.
  rewrite callTool_run.
  destruct (run (dispatch M params) up) as [[response|error] log]; reflexivity.
Qed.

Lemma callTranslateText_log (args : option JSON) (up : Upstream) :
  snd (run (callTranslateText args) up)
  = match TranslateTextInputSchema [] args with
    | ZodOk v => [POST "/v2/translate" (translate_body v)]
    | ZodFail _ => []
    end.
Proof.
  rewrite run_callTranslateText.
  destruct (TranslateTextInputSchema [] args) as [v|errors]; [|reflexivity].
  cbv zeta. destruct (up _) as [response|reason]; [|reflexivity].
  destruct (AxiosResponse.data response); reflexivity.
Qed.

Lemma callListLanguages_log (args : option JSON) (up : Upstream) :
  snd (run (callListLanguages args) up)
  = match ListLanguagesInputSchema [] args with
    | ZodOk _ => [GET "/v2/languages" (languages_params args)]
    | ZodFail _ => []
    end.
Proof.
  rewrite run_callListLanguages.
  destruct (ListLanguagesInputSchema [] args) as [v|errors]; [|reflexivity].
  cbv zeta. destruct (up _) as [response|reason]; reflexivity.
Qed.

(** X1: a tool call contacts the upstream at most once, and it does so
    exactly when the tool is one of the two and the arguments pass its
    schema, whatever the upstream then answers. *)
Theorem upstream_contacted_once (params : CallToolParams) (up : Upstream) :
  (List.length (snd (run (callTool M params) up)) <= 1)%nat /\
  (snd (run (callTool M params) up) <> []
   <-> (name params = "translate_text" /\
        accepted (TranslateTextInputSchema [] (arguments params)) = true) \/
       (name params = "list_languages" /\
        accepted (ListLanguagesInputSchema [] (arguments params)) = true)).
Proof.
  rewrite callTool_log.
  destruct (dispatch_cases params) as [[Hn ->]|[[Hn ->]|[Hn ->]]].
  - rewrite callTranslateText_log.
    destruct (TranslateTextInputSchema [] (arguments params)); simpl.
    + split; [lia|]. split; [intros _; left; auto | discriminate].
    + split; [lia|]. split; [congruence|].
      intros [[_ H]|[H _]]; [discriminate | rewrite Hn in H; discriminate].
  - rewrite callListLanguages_log.
    destruct (ListLanguagesInputSchema [] (arguments params)); simpl.
    + split; [lia|]. split; [intros _; right; auto | discriminate].
    + split; [lia|]. split; [congruence|].
      intros [[H _]|[_ H]]; [rewrite Hn in H; discriminate | discriminate].
  - simpl. split; [lia|]. split; [congruence|].
    intros [[H _]|[H _]]; exfalso; apply Hn; rewrite H; simpl; auto.
Qed.

(** X2: whatever goes upstream is a request the upstream API documents: a
    POST to [/v2/translate] with a non-empty list of strings, a target
    language and at most a non-empty source language, or a GET to
    [/v2/languages] with no parameter or [type] set to ["source"] or
    ["target"].  Nothing else is ever sent, in particular no empty [text]
    and no key the caller added. *)
Theorem only_documented_requests (params : CallToolParams) (up : Upstream) :
  Forall documented_request (snd (run (callTool M params) up)).
Proof.
  rewrite callTool_log.
  destruct (dispatch_cases params) as [[Hn ->]|[[Hn ->]|[Hn ->]]].
  - rewrite callTranslateText_log.
    destruct (TranslateTextInputSchema [] (arguments params)) as [v|errors] eqn:Ev;
      [|constructor].
    apply TranslateTextInputSchema_accepts in Ev.
    destruct Ev as (_ & _ & Hne & _).
    constructor; [|constructor]. split; [reflexivity|].
    exists (text v), (target_lang v). split; [exact Hne|].
    unfold translate_body.
    destruct (source_lang v) as [[|c s]|]; simpl; auto.
    right. eexists. split; [|reflexivity]. discriminate.
  - rewrite callListLanguages_log.
    destruct (ListLanguagesInputSchema [] (arguments params)) as [v|errors] eqn:Ev;
      [|constructor].
    assert (Ha : accepted (ListLanguagesInputSchema [] (arguments params)) = true)
      by (rewrite Ev; reflexivity).
    apply ListLanguagesInputSchema_accepts in Ha. destruct Ha as [_ Ht].
    constructor; [|constructor]. split; [reflexivity|].
    unfold languages_params. destruct Ht as [Ht|[Ht|Ht]]; rewrite Ht; auto.
  - constructor.
Qed.

(** X3: there is no retry and no masking: when the one request that went
    out was rejected by the upstream, the call ends the way
    [handleToolError] ends on that very rejection (with the normalized
    response, or with the [TypeError] of a message that cannot be
    converted), and the log still holds that one request. *)
Theorem upstream_rejection_surfaced (params : CallToolParams) (up : Upstream)
        (r : HttpRequest) (reason : Thrown)
        (Hsent : snd (run (callTool M params) up) = [r])
        (Hrejected : up r = Rejected reason) :
  run (callTool M params) up = (handleToolError M reason, [r]).
Proof.
  rewrite callTool_log in Hsent. rewrite callTool_run.
  destruct (dispatch_cases params) as [[Hn Hd]|[[Hn Hd]|[Hn Hd]]];
    rewrite Hd in Hsent |- *.
  - rewrite callTranslateText_log in Hsent. rewrite run_callTranslateText.
    destruct (TranslateTextInputSchema [] (arguments params)) as [v|errors];
      [|discriminate].
    injection Hsent as <-. cbv zeta. rewrite Hrejected. reflexivity.
  - rewrite callListLanguages_log in Hsent. rewrite run_callListLanguages.
    destruct (ListLanguagesInputSchema [] (arguments params)) as [v|errors];
      [|discriminate].
    injection Hsent as <-. cbv zeta. rewrite Hrejected. reflexivity.
  - discriminate.
Qed.

(** Every response that [handleToolError] returns is an error envelope,
    and the only thing it throws is the [TypeError] of a failed
    conversion, never for an error the server raised itself. *)
Lemma handleToolError_envelope (error : Thrown) :
  match handleToolError M error with
  | Returned response => error_envelope response
  | Threw fault =>
      fault = ThrownError cannot_convert /\
      (forall e, error <> ThrownMcpError e) /\
      (forall errors, error <> ThrownZodError errors) /\
      (forall message, error <> ThrownError message)
  end.
Proof.
  unfold handleToolError.
  destruct (mcpError_of M error) as [m|fault] eqn:Em.
  - unfold error_envelope, error_response. eauto.
  - destruct error as [e|errors|e|message|v]; simpl in Em; try discriminate.
    + destruct (ToString_opt _); [discriminate|].
      injection Em as <-. repeat split; discriminate.
    + destruct (ToString_opt v); [discriminate|].
      injection Em as <-. repeat split; discriminate.
Qed.

(** X4: a tool call that returns comes back in one of two envelopes: an
    error (one plain text block, [isError = true], an error code) or a
    result (one text block tagged [application/json], no [isError], no
    code), and a result is only ever reported after a request that the
    upstream fulfilled.  A tool call that throws instead throws the
    [TypeError] of a failed conversion, and only after a request that the
    upstream rejected, while describing that rejection. *)
Theorem response_envelope (params : CallToolParams) (up : Upstream) :
  match run (callTool M params) up with
  | (Returned response, log) =>
      error_envelope response \/
      (result_envelope response /\
       exists r answer, log = [r] /\ up r = Fulfilled answer)
  | (Threw fault, log) =>
      fault = ThrownError cannot_convert /\
      exists r reason,
        log = [r] /\ up r = Rejected reason /\
        handleToolError M reason = Threw fault
  end.
Proof.
  assert (Hown : forall error log,
             (exists e, error = ThrownMcpError e)
             \/ (exists errors, error = ThrownZodError errors)
             \/ (exists message, error = ThrownError message) ->
             match handleToolError M error, log with
             | Returned response, log =>
                 error_envelope response \/
                 (result_envelope response /\
                  exists r answer, log = [r] /\ up r = Fulfilled answer)
             | Threw fault, log =>
                 fault = ThrownError cannot_convert /\
                 exists r reason,
                   log = [r] /\ up r = Rejected reason /\
                   handleToolError M reason = Threw fault
             end).
  { intros error log Hkind. pose proof (handleToolError_envelope error) as H.
    destruct (handleToolError M error) as [response|fault]; [left; exact H|].
    destruct H as (_ & H1 & H2 & H3).
    destruct Hkind as [[e ->]|[[errors ->]|[message ->]]]; exfalso;
      [apply (H1 e) | apply (H2 errors) | apply (H3 message)]; reflexivity. }
  assert (Hrejected : forall r reason,
             up r = Rejected reason ->
             match handleToolError M reason, [r] with
             | Returned response, log =>
                 error_envelope response \/
                 (result_envelope response /\
                  exists r answer, log = [r] /\ up r = Fulfilled answer)
             | Threw fault, log =>
                 fault = ThrownError cannot_convert /\
                 exists r reason,
                   log = [r] /\ up r = Rejected reason /\
                   handleToolError M reason = Threw fault
             end).
  { intros r reason Hup. pose proof (handleToolError_envelope reason) as H.
    destruct (handleToolError M reason) as [response|fault] eqn:Eh;
      [left; exact H|].
    destruct H as (-> & _). split; [reflexivity|].
    exists r, reason. auto. }
  rewrite callTool_run.
  destruct (dispatch_cases params) as [[Hn ->]|[[Hn ->]|[Hn ->]]].
  - rewrite run_callTranslateText.
    destruct (TranslateTextInputSchema [] (arguments params)) as [v|errors];
      [|apply Hown; eauto].
    cbv zeta.
    destruct (up (POST "/v2/translate" (translate_body v)))
      as [answer|reason] eqn:Eup; [|apply Hrejected; exact Eup].
    destruct (AxiosResponse.data answer);
      try (apply Hown; eauto);
      right; (split; [unfold result_envelope; eauto | eauto]).
  - rewrite run_callListLanguages.
    destruct (ListLanguagesInputSchema [] (arguments params)) as [v|errors];
      [|apply Hown; eauto].
    cbv zeta.
    destruct (up (GET "/v2/languages" (languages_params (arguments params))))
      as [answer|reason] eqn:Eup; [|apply Hrejected; exact Eup].
    right. split; [unfold result_envelope; eauto | eauto].
  - unfold run, throw. apply Hown; eauto.
Qed.

(** X5: the error code of an upstream failure, for every status: 400 is
    InvalidParams; 401 to 499 are InvalidRequest; everything else is
    InternalError, that is no status at all, a status below 400 (a 304, a
    redirect that was not followed) and a status of 500 or more.  No
    status gives ParseError or MethodNotFound. *)
Theorem errorCode_for_every_status (status : option Z) :
  (errorCode_for status = InvalidParams <-> status = Some 400) /\
  (errorCode_for status = InvalidRequest
   <-> exists n, status = Some n /\ 401 <= n <= 499) /\
  (errorCode_for status = InternalError
   <-> status = None \/ exists n, status = Some n /\ (n < 400 \/ 500 <= n)) /\
  errorCode_for status <> ParseError /\
  errorCode_for status <> MethodNotFound.
Proof.
  destruct status as [n|].
  - unfold errorCode_for.
    destruct (Z.eqb_spec n 400), (Z.eqb_spec n 0), (Z.leb_spec 401 n),
      (Z.ltb_spec n 500), (Z.leb_spec 500 n); simpl;
      repeat split; try discriminate; intros;
      repeat match goal with
             | H : _ \/ _ |- _ => destruct H
             | H : exists _, _ |- _ => destruct H
             | H : _ /\ _ |- _ => destruct H
             | H : Some _ = Some _ |- _ => injection H as H
             | H : Some _ = None |- _ => discriminate H
             end;
      subst; try reflexivity; try discriminate; try (exfalso; lia);
      try (f_equal; lia);
      try (eexists; split; [reflexivity | lia]);
      try (right; eexists; split; [reflexivity | lia]).
  - cbn. repeat split; try discriminate; auto.
    intros [n [H _]]. discriminate.
Qed.

Lemma errorCode_for_range (status : option Z) :
  errorCode_for status = InvalidParams \/
  errorCode_for status = InvalidRequest \/
  errorCode_for status = InternalError.
Proof.
  unfold errorCode_for. destruct status as [n|]; simpl; [|auto].
  destruct (n =? 400), (negb (n =? 0)), (401 <=? n), (n <? 500), (500 <=? n);
    simpl; auto.
Qed.

(** The codes of the errors the server builds itself. *)
Lemma own_error_codes (error : Thrown) (m : McpError.t) :
  (forall e, error <> ThrownMcpError e) ->
  mcpError_of M error = Returned m ->
  McpError.code m = InvalidParams \/
  McpError.code m = InvalidRequest \/
  McpError.code m = InternalError.
Proof.
  intros Hnot. destruct error as [e|errors|e|message|v]; simpl.
  - exfalso. apply (Hnot e). reflexivity.
  - intros H. injection H as <-. auto.
  - destruct (ToString_opt _); [|discriminate].
    intros H. injection H as <-. apply errorCode_for_range.
  - intros H. injection H as <-. auto.
  - destruct (ToString_opt v); [|discriminate].
    intros H. injection H as <-. auto.
Qed.

(** X6: the catalogue and the dispatcher agree.  With an upstream that
    raises no protocol-level error of its own, a tool call that returns is
    answered with MethodNotFound exactly when its name is not one that
    ListTools advertises, and is never answered with ParseError; a call
    for a name that is not advertised always returns, with MethodNotFound
    and without a request. *)
Theorem method_not_found_iff_not_advertised (params : CallToolParams)
        (up : Upstream) (Hup : no_protocol_error up) :
  (forall response log,
      run (callTool M params) up = (Returned response, log) ->
      errorCode response <> Some ParseError /\
      (errorCode response = Some MethodNotFound
       <-> ~ In (name params) (map Tool.name listTools))) /\
  (~ In (name params) (map Tool.name listTools) ->
   exists response,
     run (callTool M params) up = (Returned response, []) /\
     errorCode response = Some MethodNotFound).
Proof.
  assert (Hown : forall error response,
             (forall e, error <> ThrownMcpError e) ->
             handleToolError M error = Returned response ->
             errorCode response <> Some ParseError /\
             errorCode response <> Some MethodNotFound).
  { intros error response Hnot. unfold handleToolError.
    destruct (mcpError_of M error) as [m|fault] eqn:Em; [|discriminate].
    intros H. injection H as <-. simpl.
    destruct (own_error_codes error m Hnot Em) as [H|[H|H]]; rewrite H;
      split; discriminate. }
  assert (Hin1 : In "translate_text" (map Tool.name listTools))
    by (simpl; auto).
  assert (Hin2 : In "list_languages" (map Tool.name listTools))
    by (simpl; auto).
  assert (Hknown : forall response : ToolResponse,
             In (name params) (map Tool.name listTools) ->
             errorCode response <> Some ParseError ->
             errorCode response <> Some MethodNotFound ->
             errorCode response <> Some ParseError /\
             (errorCode response = Some MethodNotFound
              <-> ~ In (name params) (map Tool.name listTools))).
  { intros response Hin H1 H2. split; [exact H1|]. split; intros H; contradiction. }
  assert (Hresult : forall (response : ToolResponse) txt,
             In (name params) (map Tool.name listTools) ->
             response = {| content := [TextContent.make "text" txt
                                                        (Some "application/json")];
                           isError := None;
                           errorCode := None |} ->
             errorCode response <> Some ParseError /\
             (errorCode response = Some MethodNotFound
              <-> ~ In (name params) (map Tool.name listTools))).
  { intros response txt Hin ->. apply Hknown; [exact Hin| |]; discriminate. }
  rewrite callTool_run.
  destruct (dispatch_cases params) as [[Hn ->]|[[Hn ->]|[Hn ->]]].
  - rewrite <- Hn in Hin1. split; [|intros H; contradiction].
    intros response log. rewrite run_callTranslateText.
    destruct (TranslateTextInputSchema [] (arguments params)) as [v|errors].
    + cbv zeta.
      destruct (up (POST "/v2/translate" (translate_body v)))
        as [answer|reason] eqn:Eup.
      * destruct (AxiosResponse.data answer); intros H;
          try (injection H as <- _; eapply Hresult; [exact Hin1|reflexivity]).
        destruct (Hown (ThrownError
                          "Cannot read properties of null (reading 'translations')")
                       response ltac:(discriminate)) as [H1 H2].
        { injection H as H _. unfold handleToolError. simpl. now rewrite H. }
        now apply Hknown.
      * assert (Hr : forall e, reason <> ThrownMcpError e).
        { intros e He. subst reason. exact (Hup _ _ Eup). }
        destruct (handleToolError M reason) as [response'|fault] eqn:Eh;
          [|discriminate].
        intros H. injection H as <- _.
        destruct (Hown reason response' Hr Eh) as [H1 H2]. now apply Hknown.
    + destruct (handleToolError M (ThrownZodError errors))
        as [response'|fault] eqn:Eh; [|discriminate].
      intros H. injection H as <- _.
      destruct (Hown (ThrownZodError errors) response' ltac:(discriminate) Eh)
        as [H1 H2].
      now apply Hknown.
  - rewrite <- Hn in Hin2. split; [|intros H; contradiction].
    intros response log. rewrite run_callListLanguages.
    destruct (ListLanguagesInputSchema [] (arguments params)) as [v|errors].
    + cbv zeta.
      destruct (up (GET "/v2/languages" (languages_params (arguments params))))
        as [answer|reason] eqn:Eup.
      * intros H. injection H as <- _.
        eapply Hresult; [exact Hin2|reflexivity].
      * assert (Hr : forall e, reason <> ThrownMcpError e).
        { intros e He. subst reason. exact (Hup _ _ Eup). }
        destruct (handleToolError M reason) as [response'|fault] eqn:Eh;
          [|discriminate].
        intros H. injection H as <- _.
        destruct (Hown reason response' Hr Eh) as [H1 H2]. now apply Hknown.
    + destruct (handleToolError M (ThrownZodError errors))
        as [response'|fault] eqn:Eh; [|discriminate].
      intros H. injection H as <- _.
      destruct (Hown (ThrownZodError errors) response' ltac:(discriminate) Eh)
        as [H1 H2].
      now apply Hknown.
  - split.
    + intros response log H. unfold run, throw in H.
      unfold handleToolError in H. simpl in H. injection H as <- _.
      split; [simpl; discriminate|].
      split; [intros _; exact Hn | reflexivity].
    + intros _. eexists. split; reflexivity.
Qed.

(** A payload the schema refuses, seen through the whole handler. *)
Lemma callTool_translate_refused (args : option JSON) (errors : list ZodIssue)
      (up : Upstream) :
  TranslateTextInputSchema [] args = ZodFail errors ->
  run (callTool M {| name := "translate_text"; arguments := args |}) up
  = (handleToolError M (ThrownZodError errors), []).
Proof.
  intros H. rewrite callTool_run, dispatch_translate_text.
  now rewrite (callTranslateText_refused _ _ up H).
Qed.

Lemma callTool_list_refused (args : option JSON) (errors : list ZodIssue)
      (up : Upstream) :
  ListLanguagesInputSchema [] args = ZodFail errors ->
  run (callTool M {| name := "list_languages"; arguments := args |}) up
  = (handleToolError M (ThrownZodError errors), []).
Proof.
  intros H. rewrite callTool_run, dispatch_list_languages.
  now rewrite (callListLanguages_refused _ _ up H).
Qed.

(** X7: what the catalogue declares as required is enforced: for every
    advertised tool and every key its input schema lists under [required],
    an argument object without that key is answered with InvalidParams,
    and nothing goes upstream. *)
Theorem required_keys_enforced (tool : Tool.t) (k : string)
        (props : list (string * JSON)) (up : Upstream)
        (Htool : In tool listTools)
        (Hrequired : In k (required_keys (Tool.inputSchema tool)))
        (Hmissing : assoc k props = None) :
  exists response,
    run (callTool M {| name := Tool.name tool;
                       arguments := Some (JObj props) |}) up
    = (Returned response, []) /\
    isError response = Some true /\
    errorCode response = Some InvalidParams.
Proof.
  destruct Htool as [<-|[<-|[]]]; simpl in Hrequired; [|contradiction].
  assert (Hf : fails_TranslateRequest (Some (JObj props)) = true).
  { unfold fails_TranslateRequest, text_missing, target_lang_missing.
    simpl field.
    destruct Hrequired as [<-|[<-|[]]]; rewrite Hmissing; simpl;
      rewrite ?orb_true_r; reflexivity. }
  destruct (fails_TranslateRequest_rejected _ Hf) as [errors He].
  simpl Tool.name. rewrite (callTool_translate_refused _ _ up He).
  eexists. split; [reflexivity|]. split; reflexivity.
Qed.

(** X8: the values the catalogue declares for [type] are the values the
    validator takes: a string is listed under [enum] in the advertised
    schema of [list_languages] exactly when the schema accepts it as
    [type]. *)
Theorem advertised_enum_is_accepted (tool : Tool.t) (s : string)
        (Htool : In tool listTools)
        (Hname : Tool.name tool = "list_languages") :
  In s (enum_values (Tool.inputSchema tool) "type")
  <-> accepted (ListLanguagesInputSchema [] (Some (JObj [("type", JStr s)])))
      = true.
Proof.
  destruct Htool as [<-|[<-|[]]]; [discriminate|]. clear Hname.
  rewrite ListLanguagesInputSchema_accepts. unfold type_acceptable.
  simpl. split.
  - intros [<-|[<-|[]]]; split; eauto.
  - intros [_ [H|[H|H]]]; [discriminate | |]; injection H as ->; auto.
Qed.

(** X9: the upstream body is not checked before it is read: when the
    upstream fulfils a valid translate request with a body that is [null],
    reading [translations] is a fault, and the caller gets an InternalError
    response (after the one POST) instead of a result. *)
Theorem null_body_is_a_fault (args : option JSON) (t : list string)
        (tl : string) (sl : option string) (up : Upstream)
        (answer : AxiosResponse.t)
        (Hvalid : valid_TranslateRequest args t tl sl)
        (Hfulfilled : forall body, up (POST "/v2/translate" body) = Fulfilled answer)
        (Hnull : AxiosResponse.data answer = JNull) :
  let fault :=
    ThrownError "Cannot read properties of null (reading 'translations')" in
  let response :=
    error_response
      (new_McpError M InternalError
         "An unexpected error occurred: Cannot read properties of null (reading 'translations')"
         None) in
  handleToolError M fault = Returned response /\
  (exists body,
      run (callTool M {| name := "translate_text"; arguments := args |}) up
      = (Returned response, [POST "/v2/translate" body])) /\
  errorCode response = Some InternalError.
Proof.
  intros fault response. subst fault response.
  assert (Hv : TranslateTextInputSchema [] args
               = ZodOk {| text := t; target_lang := tl; source_lang := sl |})
    by (apply TranslateTextInputSchema_accepts; exact Hvalid).
  rewrite callTool_run, dispatch_translate_text, run_callTranslateText, Hv.
  cbv zeta. rewrite Hfulfilled, Hnull.
  split; [reflexivity|]. split; [eexists; reflexivity | reflexivity].
Qed.

(** X10: likewise, a fulfilled answer whose body has no [translations] (an
    object without that key, or a body that is not an object) is reported
    as a result: one [application/json] block whose text is [undefined],
    with no [isError]. *)
Theorem missing_translations_is_a_result (args : option JSON) (t : list string)
        (tl : string) (sl : option string) (up : Upstream)
        (answer : AxiosResponse.t)
        (Hvalid : valid_TranslateRequest args t tl sl)
        (Hfulfilled : forall body, up (POST "/v2/translate" body) = Fulfilled answer)
        (Hnot_null : AxiosResponse.data answer <> JNull)
        (Hmissing : get_prop (AxiosResponse.data answer) "translations" = None) :
  fst (run (callTool M {| name := "translate_text"; arguments := args |}) up)
  = Returned {| content := [TextContent.make "text" None
                                             (Some "application/json")];
                isError := None;
                errorCode := None |}.
Proof.
  assert (Hv : TranslateTextInputSchema [] args
               = ZodOk {| text := t; target_lang := tl; source_lang := sl |})
    by (apply TranslateTextInputSchema_accepts; exact Hvalid).
  rewrite callTool_run, dispatch_translate_text, run_callTranslateText, Hv.
  cbv zeta. rewrite Hfulfilled.
  destruct (AxiosResponse.data answer); try contradiction;
    rewrite Hmissing; reflexivity.
Qed.

(** X11: arguments that are not an object (an array, a string, a number,
    [null], or no [arguments] at all) are refused by both tools with the
    single issue that an object was expected, at the root path; nothing
    goes upstream.  So [list_languages] called without [arguments] is an
    InvalidParams error, not an unfiltered listing. *)
Theorem non_object_arguments_refused (args : option JSON) (up : Upstream)
        (Hnot_object : is_object args = false) :
  let issues := [invalid_type "object" (getParsedType args) []] in
  let refusal :=
    error_response
      (new_McpError M InvalidParams "Input validation failed"
                    (Some (errors_json issues))) in
  handleToolError M (ThrownZodError issues) = Returned refusal /\
  run (callTool M {| name := "translate_text"; arguments := args |}) up
  = (Returned refusal, []) /\
  run (callTool M {| name := "list_languages"; arguments := args |}) up
  = (Returned refusal, []) /\
  errorCode refusal = Some InvalidParams.
Proof.
  intros issues refusal. subst issues refusal.
  assert (H1 : TranslateTextInputSchema [] args
               = ZodFail [invalid_type "object" (getParsedType args) []])
    by (destruct args as [[]|]; try discriminate; reflexivity).
  assert (H2 : ListLanguagesInputSchema [] args
               = ZodFail [invalid_type "object" (getParsedType args) []])
    by (destruct args as [[]|]; try discriminate; reflexivity).
  rewrite (callTool_translate_refused _ _ up H1).
  rewrite (callTool_list_refused _ _ up H2).
  repeat split.
Qed.

(** X12: a [source_lang] that is present and not a string is refused:
    [null] is not a way to ask for auto-detection, only leaving the key out
    is.  The answer is InvalidParams and nothing goes upstream. *)
Theorem non_string_source_lang_refused (props : list (string * JSON))
        (v : JSON) (up : Upstream)
        (Hpresent : assoc "source_lang" props = Some v)
        (Hnot_string : is_JStr v = false) :
  exists response,
    run (callTool M {| name := "translate_text";
                       arguments := Some (JObj props) |}) up
    = (Returned response, []) /\
    isError response = Some true /\
    errorCode response = Some InvalidParams.
Proof.
  destruct (TranslateTextInputSchema [] (Some (JObj props)))
    as [w|errors] eqn:E.
  - exfalso. apply TranslateTextInputSchema_accepts in E.
    destruct E as (_ & _ & _ & _ & Hs). simpl in Hs.
    rewrite Hpresent in Hs. destruct (source_lang w); [|discriminate].
    injection Hs as ->. discriminate.
  - rewrite (callTool_translate_refused _ _ up E).
    eexists. split; [reflexivity|]. split; reflexivity.
Qed.

(** X13: keys the schemas do not declare are ignored: two argument objects
    that agree on [text], [target_lang] and [source_lang] get the same
    translate run (same request, same response), and two that agree on
    [type] get the same list_languages run. *)
Theorem undeclared_keys_ignored (props props' : list (string * JSON))
        (up : Upstream) :
  (assoc "text" props = assoc "text" props' ->
   assoc "target_lang" props = assoc "target_lang" props' ->
   assoc "source_lang" props = assoc "source_lang" props' ->
   run (callTool M {| name := "translate_text";
                      arguments := Some (JObj props) |}) up
   = run (callTool M {| name := "translate_text";
                        arguments := Some (JObj props') |}) up) /\
  (assoc "type" props = assoc "type" props' ->
   run (callTool M {| name := "list_languages";
                      arguments := Some (JObj props) |}) up
   = run (callTool M {| name := "list_languages";
                        arguments := Some (JObj props') |}) up).
Proof.
  split.
  - intros H1 H2 H3.
    assert (Hs : TranslateTextInputSchema [] (Some (JObj props))
                 = TranslateTextInputSchema [] (Some (JObj props')))
      by (unfold TranslateTextInputSchema; rewrite H1, H2, H3; reflexivity).
    rewrite !callTool_run, !dispatch_translate_text, !run_callTranslateText.
    rewrite Hs. reflexivity.
  - intros H.
    assert (Hs : ListLanguagesInputSchema [] (Some (JObj props))
                 = ListLanguagesInputSchema [] (Some (JObj props')))
      by (unfold ListLanguagesInputSchema; rewrite H; reflexivity).
    rewrite !callTool_run, !dispatch_list_languages, !run_callListLanguages.
    rewrite Hs. unfold languages_params. simpl field. rewrite H. reflexivity.
Qed.

(** *** What a validation failure reports *)

(** The issues of an element list: one per element that is not a string,
    at its index, in order. *)
Lemma z_elements_issues (path : list PathSeg) (items : list JSON) :
  forall i,
    issues_of (z_elements z_string path i items)
    = map (fun p => invalid_type "string" (getParsedType (Some (snd p)))
                                 (path ++ [Index (fst p)])%list)
          (bad_elements i items).
Proof.
  induction items as [|x rest IH]; intros i; [reflexivity|].
  specialize (IH (S i)).
  destruct x; cbn [z_elements z_string bad_elements map fst snd];
    destruct (z_elements z_string path (S i) rest);
    cbn [issues_of List.app] in *; rewrite <- ?IH; reflexivity.
Qed.

Lemma z_elements_refused (path : list PathSeg) (items : list JSON) :
  forall i errors,
    z_elements z_string path i items = ZodFail errors -> errors <> [].
Proof.
  induction items as [|x rest IH]; intros i errors; simpl; [discriminate|].
  specialize (IH (S i)).
  destruct (z_elements z_string path (S i) rest) as [l|errs];
    destruct x; simpl; intros H; try discriminate; injection H as <-;
    try discriminate.
  simpl. now apply IH.
Qed.

Lemma z_array_min_refused (message : string) (path : list PathSeg)
      (input : option JSON) (errors : list ZodIssue) :
  z_array_min z_string 1 message path input = ZodFail errors -> errors <> [].
Proof.
  unfold z_array_min.
  destruct input as [[| | | |items|]|]; try (intros H; injection H as <-; discriminate).
  destruct items as [|x rest].
  - simpl. intros H. injection H as <-. discriminate.
  - change (List.length (x :: rest) <? 1)%nat with false. cbv iota.
    destruct (z_elements z_string path 0 (x :: rest)) as [l|errs] eqn:E;
      [discriminate|].
    intros H. injection H as <-. simpl. now apply (z_elements_refused _ _ _ _ E).
Qed.

Lemma z_string_refused (path : list PathSeg) (input : option JSON)
      (errors : list ZodIssue) :
  z_string path input = ZodFail errors -> errors <> [].
Proof.
  destruct input as [[]|]; simpl; intros H; try discriminate;
    injection H as <-; discriminate.
Qed.

Lemma z_optional_string_refused (path : list PathSeg) (input : option JSON)
      (errors : list ZodIssue) :
  z_optional z_string path input = ZodFail errors -> errors <> [].
Proof.
  destruct input as [[]|]; simpl; intros H; try discriminate;
    injection H as <-; discriminate.
Qed.

Lemma issues_of_refused {A} (r : ZodResult A) :
  (forall errors, r = ZodFail errors -> errors <> []) ->
  (issues_of r <> [] <-> forall v, r <> ZodOk v).
Proof.
  intros Hne. destruct r as [v|errors]; simpl.
  - split; [congruence|]. intros H. exfalso. exact (H v eq_refl).
  - split; [discriminate|]. intros _. now apply Hne.
Qed.

(** The issues of the translate schema on an object: those of [text], then
    those of [target_lang], then those of [source_lang]. *)
Lemma TranslateTextInputSchema_issues (props : list (string * JSON))
      (errors : list ZodIssue) :
  TranslateTextInputSchema [] (Some (JObj props)) = ZodFail errors ->
  errors
  = (issues_of (z_array_min z_string 1 "The 'text' array cannot be empty."
                            [Key "text"] (assoc "text" props))
       ++ issues_of (z_string [Key "target_lang"] (assoc "target_lang" props))
       ++ issues_of (z_optional z_string [Key "source_lang"]
                                (assoc "source_lang" props)))%list.
Proof.
  unfold TranslateTextInputSchema. cbv zeta. rewrite !List.app_nil_l.
  destruct (z_array_min z_string 1 "The 'text' array cannot be empty."
              [Key "text"] (assoc "text" props));
    destruct (z_string [Key "target_lang"] (assoc "target_lang" props));
    destruct (z_optional z_string [Key "source_lang"]
                (assoc "source_lang" props));
    intros H; try discriminate; injection H as <-; reflexivity.
Qed.

(** X14: a validation failure always reports at least one issue, for
    both tools. *)
Theorem validation_failure_has_an_issue (args : option JSON)
        (errors : list ZodIssue)
        (Hrefused : TranslateTextInputSchema [] args = ZodFail errors \/
                    ListLanguagesInputSchema [] args = ZodFail errors) :
  errors <> [].
Proof.
  destruct Hrefused as [H|H].
  - destruct args as [[| | | | |props]|];
      try (injection H as <-; discriminate).
    unfold TranslateTextInputSchema in H. cbv zeta in H.
    rewrite !List.app_nil_l in H.
    destruct (z_array_min z_string 1 "The 'text' array cannot be empty."
                [Key "text"] (assoc "text" props)) as [t|e1] eqn:E1;
      destruct (z_string [Key "target_lang"] (assoc "target_lang" props))
        as [tl|e2] eqn:E2;
      destruct (z_optional z_string [Key "source_lang"]
                  (assoc "source_lang" props)) as [sl|e3] eqn:E3;
      try discriminate; injection H as <-; simpl;
      try apply z_array_min_refused in E1;
      try apply z_string_refused in E2;
      try apply z_optional_string_refused in E3;
      intros Happ;
      repeat match goal with
             | H : (_ ++ _)%list = [] |- _ =>
                 apply app_eq_nil in H; destruct H
             end;
      rewrite ?List.app_nil_r in *; contradiction.
  - destruct args as [[| | | | |props]|];
      try (injection H as <-; discriminate).
    unfold ListLanguagesInputSchema in H. rewrite !List.app_nil_l in H.
    destruct (assoc "type" props) as [[| | |s| |]|]; cbn -[mem_string] in H;
      try (injection H as <-; discriminate); try discriminate.
    destruct (mem_string s ["source"; "target"]); simpl in H;
      [discriminate | injection H as <-; discriminate].
Qed.

Lemma z_array_min_issues (message : string) (path : list PathSeg)
      (items : list JSON) :
  items <> [] ->
  issues_of (z_array_min z_string 1 message path (Some (JArr items)))
  = issues_of (z_elements z_string path 0 items).
Proof.
  intros Hne. unfold z_array_min.
  destruct items as [|x rest]; [contradiction|].
  change (List.length (x :: rest) <? 1)%nat with false. cbv iota.
  destruct (z_elements z_string path 0 (x :: rest)); reflexivity.
Qed.

(** X15: when [text] is a non-empty array and the other fields are fine,
    the issues reported are exactly the elements of [text] that are not
    strings: one [invalid_type] issue each, at the path [text, index], in
    the order of the array. *)
Theorem text_elements_reported (props : list (string * JSON))
        (items : list JSON) (tl : string) (sl : option string)
        (errors : list ZodIssue)
        (Htext : assoc "text" props = Some (JArr items))
        (Hnonempty : items <> [])
        (Htarget : assoc "target_lang" props = Some (JStr tl))
        (Hsource : assoc "source_lang" props = option_map JStr sl)
        (Hrefused : TranslateTextInputSchema [] (Some (JObj props))
                    = ZodFail errors) :
  errors
  = map (fun p => invalid_type "string" (getParsedType (Some (snd p)))
                               [Key "text"; Index (fst p)])
        (bad_elements 0 items).
Proof.
  rewrite (TranslateTextInputSchema_issues _ _ Hrefused).
  rewrite Htext, Htarget, Hsource.
  rewrite (z_array_min_issues _ _ _ Hnonempty), z_elements_issues.
  destruct sl; simpl; now rewrite List.app_nil_r.
Qed.

Lemma Exists_of_all {A} (P : A -> Prop) (l : list A) :
  Forall P l -> (Exists P l <-> l <> []).
Proof.
  intros Hall. destruct l as [|x l].
  - split; [intros H; inversion H | congruence].
  - split; [discriminate|]. intros _. inversion Hall; subst. now left.
Qed.

Lemma Exists_of_none {A} (P : A -> Prop) (l : list A) :
  Forall (fun x => ~ P x) l -> ~ Exists P l.
Proof.
  intros Hall Hex. apply Exists_exists in Hex as (x & Hin & Hx).
  rewrite Forall_forall in Hall. exact (Hall x Hin Hx).
Qed.

(** X16: validation is not fail-fast: every field that is wrong is
    reported in the same failure.  Among the issues of a refused argument
    object, there is one about [text] exactly when [text] is not a
    non-empty array of strings, one about [target_lang] exactly when it is
    not a string, and one about [source_lang] exactly when it is present
    and not a string. *)
Theorem every_wrong_field_reported (props : list (string * JSON))
        (errors : list ZodIssue)
        (Hrefused : TranslateTextInputSchema [] (Some (JObj props))
                    = ZodFail errors) :
  (Exists (fun issue => exists rest, issue_path issue = Key "text" :: rest)
          errors
   <-> ~ exists t, assoc "text" props = Some (JArr (map JStr t)) /\ t <> []) /\
  (Exists (fun issue => issue_path issue = [Key "target_lang"]) errors
   <-> ~ exists s, assoc "target_lang" props = Some (JStr s)) /\
  (Exists (fun issue => issue_path issue = [Key "source_lang"]) errors
   <-> exists v, assoc "source_lang" props = Some v /\ is_JStr v = false).
Proof.
  rewrite (TranslateTextInputSchema_issues _ _ Hrefused).
  set (r1 := z_array_min z_string 1 "The 'text' array cannot be empty."
                         [Key "text"] (assoc "text" props)).
  set (r2 := z_string [Key "target_lang"] (assoc "target_lang" props)).
  set (r3 := z_optional z_string [Key "source_lang"]
                        (assoc "source_lang" props)).
  pose proof (z_array_min_issue_paths 1 "The 'text' array cannot be empty."
                [Key "text"] (assoc "text" props)) as P1.
  pose proof (z_string_issue_path [Key "target_lang"]
                (assoc "target_lang" props)) as P2.
  pose proof (z_optional_string_issue_path [Key "source_lang"]
                (assoc "source_lang" props)) as P3.
  fold r1 in P1. fold r2 in P2. fold r3 in P3.
  assert (N1 : issues_of r1 <> [] <-> forall v, r1 <> ZodOk v)
    by (apply issues_of_refused; intros e; apply z_array_min_refused).
  assert (N2 : issues_of r2 <> [] <-> forall v, r2 <> ZodOk v)
    by (apply issues_of_refused; intros e; apply z_string_refused).
  assert (N3 : issues_of r3 <> [] <-> forall v, r3 <> ZodOk v)
    by (apply issues_of_refused; intros e; apply z_optional_string_refused).
  rewrite !Exists_app. repeat split.
  - intros [H|[H|H]].
    + intros (t & Ht & Hne).
      assert (Hex : issues_of r1 <> [])
        by (intros E; rewrite E in H; inversion H).
      apply (proj1 N1 Hex t).
      apply z_array_min_strings_accepts. auto.
    + exfalso. revert H. apply Exists_of_none.
      eapply Forall_impl; [|exact P2]. intros a Ha [rest Hr]. congruence.
    + exfalso. revert H. apply Exists_of_none.
      eapply Forall_impl; [|exact P3]. intros a Ha [rest Hr]. congruence.
  - intros Hno. left. apply Exists_of_all.
    + eapply Forall_impl; [|exact P1]. intros a [rest Ha]. eauto.
    + apply (proj2 N1). intros t Ht. apply Hno. exists t.
      now apply z_array_min_strings_accepts in Ht.
  - intros [H|[H|H]].
    + exfalso. revert H. apply Exists_of_none.
      eapply Forall_impl; [|exact P1]. intros a [rest Ha] Hr.
      rewrite Ha in Hr. discriminate.
    + intros (s & Hs).
      assert (Hex : issues_of r2 <> [])
        by (intros E; rewrite E in H; inversion H).
      apply (proj1 N2 Hex s). now apply z_string_accepts.
    + exfalso. revert H. apply Exists_of_none.
      eapply Forall_impl; [|exact P3]. intros a Ha Hr. congruence.
  - intros Hno. right; left. apply Exists_of_all; [exact P2|].
    apply (proj2 N2). intros s Hs. apply Hno. exists s.
    now apply z_string_accepts in Hs.
  - intros [H|[H|H]].
    + exfalso. revert H. apply Exists_of_none.
      eapply Forall_impl; [|exact P1]. intros a [rest Ha] Hr.
      rewrite Ha in Hr. discriminate.
    + exfalso. revert H. apply Exists_of_none.
      eapply Forall_impl; [|exact P2]. intros a Ha Hr. congruence.
    + assert (Hex : issues_of r3 <> [])
        by (intros E; rewrite E in H; inversion H).
      pose proof (proj1 N3 Hex) as Hex'. clear Hex. rename Hex' into Hex.
      destruct (assoc "source_lang" props) as [v|] eqn:Ev.
      * exists v. split; [reflexivity|].
        destruct v; try reflexivity.
        exfalso. apply (Hex (Some s)). reflexivity.
      * exfalso. apply (Hex None). reflexivity.
  - intros (v & Hv & Hs). right; right. apply Exists_of_all; [exact P3|].
    apply (proj2 N3). intros o Ho. subst r3.
    apply z_optional_string_accepts in Ho. rewrite Hv in Ho.
    destruct o; [|discriminate]. injection Ho as ->. discriminate.
Qed.

(** X17: the language listing comes back as the upstream sent it: when
    the arguments are accepted and the upstream fulfils the GET, the call
    returns one [application/json] block whose text is the upstream body
    serialized with indentation 2, and parsing that text gives the body
    back, whatever JSON value it is. *)
Theorem list_languages_block_parses_back (args : option JSON) (up : Upstream)
        (answer : AxiosResponse.t)
        (Haccepted : accepted (ListLanguagesInputSchema [] args) = true)
        (Hfulfilled : forall params,
            up (GET "/v2/languages" params) = Fulfilled answer)
        (Hwf : well_formed (AxiosResponse.data answer)) :
  exists txt,
    run (callTool M {| name := "list_languages"; arguments := args |}) up
    = (Returned {| content := [TextContent.make "text" (Some txt)
                                                (Some "application/json")];
                   isError := None;
                   errorCode := None |},
       [GET "/v2/languages" (languages_params args)]) /\
    txt = SerializeJSON "  " EmptyString (AxiosResponse.data answer) /\
    JSON_parse txt = Some (AxiosResponse.data answer).
Proof.
  apply accepted_ok in Haccepted. destruct Haccepted as [v Hv].
  rewrite callTool_run, dispatch_list_languages, run_callListLanguages, Hv.
  cbv zeta. rewrite Hfulfilled. eexists. split; [reflexivity|].
  split; [reflexivity|]. now apply JSON_parse_serialize.
Qed.

(** X18: the [Details] line of an error response is machine readable:
    when the normalized error carries details that are not an empty value,
    the text is [Error: <message>], a new line, [Details: ] and a JSON
    text that parses back to exactly those details. *)
Theorem details_parse_back (error : Thrown) (m : McpError.t) (d : JSON)
        (Hnormalized : mcpError_of M error = Returned m)
        (Hdata : McpError.data m = Some d)
        (Htruthy : truthy (Some d) = true)
        (Hwf : well_formed d) :
  exists details,
    handleToolError M error = Returned (error_response m) /\
    content (error_response m)
    = [TextContent.make "text"
         (Some ("Error: " ++ McpError.message m
                  ++ nl ++ "Details: " ++ details))
         None] /\
    JSON_parse details = Some d.
Proof.
  exists (SerializeJSON EmptyString EmptyString d). split; [|split].
  - unfold handleToolError. rewrite Hnormalized. reflexivity.
  - unfold error_response. rewrite Hdata, Htruthy. reflexivity.
  - now apply JSON_parse_serialize.
Qed.

End Coverage.

(** ** The further properties at sample inputs *)

(** A 403 on a valid translate call. *)
Lemma upstream_rejection_surfaced_sample :
  run (callTool sdk_message
         {| name := "translate_text"; arguments := Some sample_args |})
      (failing 403 (JObj [("message", JStr "Forbidden")]))
  = (handleToolError sdk_message
       (ThrownAxiosError
          (http_failure 403 (JObj [("message", JStr "Forbidden")]))),
     [POST "/v2/translate" sample_args]).
Proof.
  exact (upstream_rejection_surfaced sdk_message
           {| name := "translate_text"; arguments := Some sample_args |}
           (failing 403 (JObj [("message", JStr "Forbidden")]))
           (POST "/v2/translate" sample_args)
           (ThrownAxiosError
              (http_failure 403 (JObj [("message", JStr "Forbidden")])))
           eq_refl eq_refl).
Defined.

Lemma sample_upstream_no_protocol_error : no_protocol_error sample_upstream.
Proof.
  intros r e H. discriminate H.
Qed.

(** A name that is not advertised. *)
Lemma method_not_found_iff_not_advertised_sample :
  exists response,
    run (callTool sdk_message
           {| name := "summarize"; arguments := Some sample_args |})
        sample_upstream
    = (Returned response, []) /\
    errorCode response = Some MethodNotFound.
Proof.
  apply (method_not_found_iff_not_advertised sdk_message
           {| name := "summarize"; arguments := Some sample_args |}
           sample_upstream sample_upstream_no_protocol_error).
  simpl. intros [H|[H|[]]]; discriminate H.
Defined.

(** [target_lang] is required and missing. *)
Lemma required_keys_enforced_sample :
  exists response,
    run (callTool sdk_message
           {| name := "translate_text";
              arguments := Some (JObj [("text", JArr [JStr "Hello"])]) |})
        sample_upstream
    = (Returned response, []) /\
    isError response = Some true /\
    errorCode response = Some InvalidParams.
Proof.
  apply (required_keys_enforced sdk_message translate_text_tool "target_lang"
           [("text", JArr [JStr "Hello"])] sample_upstream).
  - left. reflexivity.
  - right. left. reflexivity.
  - reflexivity.
Defined.

Lemma advertised_enum_is_accepted_sample :
  In "source" (enum_values (Tool.inputSchema list_languages_tool) "type")
  <-> accepted (ListLanguagesInputSchema []
                  (Some (JObj [("type", JStr "source")]))) = true.
Proof.
  apply (advertised_enum_is_accepted list_languages_tool "source").
  - right. left. reflexivity.
  - reflexivity.
Defined.

(** A fulfilled answer with a [null] body. *)
Lemma null_body_is_a_fault_sample :
  let fault :=
    ThrownError "Cannot read properties of null (reading 'translations')" in
  let response :=
    error_response
      (new_McpError sdk_message InternalError
         "An unexpected error occurred: Cannot read properties of null (reading 'translations')"
         None) in
  handleToolError sdk_message fault = Returned response /\
  (exists body,
      run (callTool sdk_message
             {| name := "translate_text"; arguments := Some sample_args |})
          (answering 200 JNull)
      = (Returned response, [POST "/v2/translate" body])) /\
  errorCode response = Some InternalError.
Proof.
  exact (null_body_is_a_fault sdk_message (Some sample_args)
           ["Hello world"; "How are you?"] "DE" None (answering 200 JNull)
           (AxiosResponse.make 200 JNull) sample_args_valid
           (fun _ => eq_refl) eq_refl).
Defined.

(** A fulfilled answer with an empty object as body. *)
Lemma missing_translations_is_a_result_sample :
  fst (run (callTool sdk_message
              {| name := "translate_text"; arguments := Some sample_args |})
           (answering 200 (JObj [])))
  = Returned {| content := [TextContent.make "text" None
                                             (Some "application/json")];
                isError := None;
                errorCode := None |}.
Proof.
  apply (missing_translations_is_a_result sdk_message (Some sample_args)
           ["Hello world"; "How are you?"] "DE" None (answering 200 (JObj []))
           (AxiosResponse.make 200 (JObj [])) sample_args_valid
           (fun _ => eq_refl)).
  - discriminate.
  - reflexivity.
Defined.

(** No [arguments] at all. *)
Lemma non_object_arguments_refused_sample :
  let issues := [invalid_type "object" "undefined" []] in
  let refusal :=
    error_response
      (new_McpError sdk_message InvalidParams "Input validation failed"
                    (Some (errors_json issues))) in
  handleToolError sdk_message (ThrownZodError issues) = Returned refusal /\
  run (callTool sdk_message {| name := "translate_text"; arguments := None |})
      sample_upstream
  = (Returned refusal, []) /\
  run (callTool sdk_message {| name := "list_languages"; arguments := None |})
      sample_upstream
  = (Returned refusal, []) /\
  errorCode refusal = Some InvalidParams.
Proof.
  exact (non_object_arguments_refused sdk_message None sample_upstream eq_refl).
Defined.

(** [source_lang: null]. *)
Lemma non_string_source_lang_refused_sample :
  exists response,
    run (callTool sdk_message
           {| name := "translate_text";
              arguments := Some (JObj [("text", JArr [JStr "Hello"]);
                                       ("target_lang", JStr "DE");
                                       ("source_lang", JNull)]) |})
        sample_upstream
    = (Returned response, []) /\
    isError response = Some true /\
    errorCode response = Some InvalidParams.
Proof.
  exact (non_string_source_lang_refused sdk_message
           [("text", JArr [JStr "Hello"]); ("target_lang", JStr "DE");
            ("source_lang", JNull)]
           JNull sample_upstream eq_refl eq_refl).
Defined.

(** An empty [text] and no [target_lang]: two issues. *)
Lemma validation_failure_has_an_issue_sample :
  [too_small 1 "The 'text' array cannot be empty." [Key "text"];
   invalid_type "string" "undefined" [Key "target_lang"]] <> [].
Proof.
  apply (validation_failure_has_an_issue
           (Some (JObj [("text", JArr [])]))).
  left. reflexivity.
Defined.

(** A number and a [null] among the strings. *)
Lemma text_elements_reported_sample :
  [invalid_type "string" "number" [Key "text"; Index 1];
   invalid_type "string" "null" [Key "text"; Index 2]]
  = map (fun p => invalid_type "string" (getParsedType (Some (snd p)))
                               [Key "text"; Index (fst p)])
        (bad_elements 0 [JStr "Hello"; JNum 5; JNull]).
Proof.
  apply (text_elements_reported
           [("text", JArr [JStr "Hello"; JNum 5; JNull]);
            ("target_lang", JStr "DE")]
           [JStr "Hello"; JNum 5; JNull] "DE" None); try reflexivity.
  discriminate.
Defined.

(** All three fields wrong at once. *)
Lemma every_wrong_field_reported_sample :
  let props := [("text", JArr []); ("source_lang", JNum 1)] in
  let errors :=
    [too_small 1 "The 'text' array cannot be empty." [Key "text"];
     invalid_type "string" "undefined" [Key "target_lang"];
     invalid_type "string" "number" [Key "source_lang"]] in
  (Exists (fun issue => exists rest, issue_path issue = Key "text" :: rest)
          errors
   <-> ~ exists t, assoc "text" props = Some (JArr (map JStr t)) /\ t <> []) /\
  (Exists (fun issue => issue_path issue = [Key "target_lang"]) errors
   <-> ~ exists s, assoc "target_lang" props = Some (JStr s)) /\
  (Exists (fun issue => issue_path issue = [Key "source_lang"]) errors
   <-> exists v, assoc "source_lang" props = Some v /\ is_JStr v = false).
Proof.
  exact (every_wrong_field_reported
           [("text", JArr []); ("source_lang", JNum 1)] _ eq_refl).
Defined.

Lemma sample_languages_well_formed : well_formed sample_languages.
Proof.
  simpl. repeat split.
Qed.

(** The target languages, listed. *)
Lemma list_languages_block_parses_back_sample :
  exists txt,
    run (callTool sdk_message
           {| name := "list_languages";
              arguments := Some (JObj [("type", JStr "target")]) |})
        (answering 200 sample_languages)
    = (Returned {| content := [TextContent.make "text" (Some txt)
                                                (Some "application/json")];
                   isError := None;
                   errorCode := None |},
       [GET "/v2/languages" [("type", JStr "target")]]) /\
    txt = SerializeJSON "  " EmptyString sample_languages /\
    JSON_parse txt = Some sample_languages.
Proof.
  exact (list_languages_block_parses_back sdk_message
           (Some (JObj [("type", JStr "target")]))
           (answering 200 sample_languages)
           (AxiosResponse.make 200 sample_languages)
           eq_refl (fun _ => eq_refl) sample_languages_well_formed).
Defined.

(** The details of a 403 with a JSON body. *)
Lemma details_parse_back_sample :
  exists details,
    handleToolError sdk_message
      (ThrownAxiosError (http_failure 403 (JObj [("message", JStr "Forbidden")])))
    = Returned
        (error_response
           (McpError.make InvalidRequest
              "MCP error -32600: DeepL API Error (403): Forbidden"
              (Some (JObj [("message", JStr "Forbidden")])))) /\
    content
      (error_response
         (McpError.make InvalidRequest
            "MCP error -32600: DeepL API Error (403): Forbidden"
            (Some (JObj [("message", JStr "Forbidden")]))))
    = [TextContent.make "text"
         (Some ("Error: MCP error -32600: DeepL API Error (403): Forbidden"
                  ++ nl ++ "Details: " ++ details))
         None] /\
    JSON_parse details = Some (JObj [("message", JStr "Forbidden")]).
Proof.
  exact (details_parse_back sdk_message
           (ThrownAxiosError
              (http_failure 403 (JObj [("message", JStr "Forbidden")])))
           (McpError.make InvalidRequest
              "MCP error -32600: DeepL API Error (403): Forbidden"
              (Some (JObj [("message", JStr "Forbidden")])))
           (JObj [("message", JStr "Forbidden")])
           eq_refl eq_refl eq_refl forbidden_body_well_formed).
Defined.
